(** * WhisperBrain: conversational session engine

    A shallow embedding of the session-and-memory core of the WhisperBrain
    voice backend, and the properties of its specification that concern

    - [app/services/memory_manager.py]      (ConversationMemory),
    - [app/services/context_analyzer.py]    (ContextAnalyzer),
    - [app/middleware/rate_limiter.py]      (RateLimiter),
    - [app/models/session.py]               (UserSession, SessionManager),
    - [app/services/reconnection_manager.py] (ReconnectionManager).

    Conventions of the embedding.

    - Python [str] is Rocq [string]; the two agree on ASCII text, which is
      the domain of the model (case conversion, whitespace and word
      characters are those of Python on code points below 128).
    - Python [int] is [Z]; [len] is a [nat] injected into [Z] where the
      source compares it with a configuration value.
    - Wall-clock readings are inputs: [datetime.now().isoformat()] is a
      [string] compared as Python compares strings, [time.time()] is an
      exact rational, [datetime.now()] is a count of microseconds.
    - Objects that the source shares by reference (message dictionaries,
      session objects) carry an identity or live in an explicit store. *)

From Stdlib Require Import ZArith QArith Lqa String Ascii List DecimalString.
From stdpp Require Import gmap strings list fin_maps sorting.

Open Scope Z_scope.

(** ** Python built-ins used by the services *)

Module Py.

(** Resolution of a slice bound [i] against a sequence of length [n]:
    negative bounds count from the end, and every bound is clamped. *)
Definition slice_bound (n : nat) (i : Z) : nat :=
  if i <? 0 then Z.to_nat (Z.max 0 (Z.of_nat n + i))
  else Z.to_nat (Z.min i (Z.of_nat n)).

(** [l[i:]] *)
Definition slice_from {A} (i : Z) (l : list A) : list A :=
  drop (slice_bound (length l) i) l.

(** [l[:i]] *)
Definition slice_to {A} (i : Z) (l : list A) : list A :=
  take (slice_bound (length l) i) l.

Definition code (c : ascii) : nat := nat_of_ascii c.

Definition is_upper (c : ascii) : bool :=
  (65 <=? code c)%nat && (code c <=? 90)%nat.

Definition is_lower (c : ascii) : bool :=
  (97 <=? code c)%nat && (code c <=? 122)%nat.

Definition is_digit (c : ascii) : bool :=
  (48 <=? code c)%nat && (code c <=? 57)%nat.

(** [str.isspace] on one character: tab, line feed, vertical tab, form
    feed, carriage return, the four separators 28..31 and the space. *)
Definition is_space (c : ascii) : bool :=
  ((9 <=? code c)%nat && (code c <=? 13)%nat)
  || ((28 <=? code c)%nat && (code c <=? 32)%nat).

(** The class [\w] of the [re] module. *)
Definition is_word (c : ascii) : bool :=
  is_upper c || is_lower c || is_digit c || (code c =? 95)%nat.

Definition lower_char (c : ascii) : ascii :=
  if is_upper c then ascii_of_nat (code c + 32) else c.

Definition upper_char (c : ascii) : ascii :=
  if is_lower c then ascii_of_nat (code c - 32) else c.

Fixpoint map_string (f : ascii -> ascii) (s : string) : string :=
  match s with
  | EmptyString => EmptyString
  | String c r => String (f c) (map_string f r)
  end.

(** [s.lower()] *)
Definition lower (s : string) : string := map_string lower_char s.

(** [s.capitalize()] *)
Definition capitalize (s : string) : string :=
  match s with
  | EmptyString => EmptyString
  | String c r => String (upper_char c) (lower r)
  end.

Fixpoint lstrip (s : string) : string :=
  match s with
  | EmptyString => EmptyString
  | String c r => if is_space c then lstrip r else s
  end.

Fixpoint rstrip (s : string) : string :=
  match s with
  | EmptyString => EmptyString
  | String c r =>
      match rstrip r with
      | EmptyString => if is_space c then EmptyString else String c EmptyString
      | r' => String c r'
      end
  end.

(** [s.strip()] *)
Definition strip (s : string) : string := rstrip (lstrip s).

(** [s.startswith(p)] *)
Definition startswith (s p : string) : bool := String.prefix p s.

(** [needle in hay] on strings *)
Fixpoint contains (needle hay : string) : bool :=
  String.prefix needle hay
  || match hay with
     | EmptyString => false
     | String _ r => contains needle r
     end.

(** [sep.join(parts)] *)
Fixpoint join (sep : string) (parts : list string) : string :=
  match parts with
  | [] => EmptyString
  | [p] => p
  | p :: rest => String.append p (String.append sep (join sep rest))
  end.

(** [str(n)] for an [int], as an f-string prints it *)
Definition str_of_int (n : Z) : string :=
  NilZero.string_of_int (Z.to_int n).

(** [len(l)] as a Python [int] *)
Definition len {A} (l : list A) : Z := Z.of_nat (length l).

(** A text that does not begin with white space. *)
Definition trimmed_left (s : string) : Prop :=
  match s with
  | EmptyString => True
  | String c _ => Py.is_space c = false
  end.

End Py.

(** ** ConversationMemory ([app/services/memory_manager.py]) *)

Module Memory.

(** A message dictionary.  [ident] is the identity [id(msg)] of the
    dictionary object; [is_summary] is the key only the summary carries. *)
Record Message : Type := mkMessage {
  ident : nat;
  role : string;
  content : string;
  timestamp : string;
  tokens : Z;
  important : bool;
  is_summary : bool
}.

Record ConversationMemory : Type := mkMemory {
  max_tokens : Z;
  max_messages : Z;
  summarize_threshold : Z;
  important_keywords : list string;
  messages : list Message;
  summary : option string;
  total_tokens : Z;
  next_ident : nat
}.

Definition default_keywords : list string :=
  ["important"; "remember"; "note"; "save"; "key"; "critical"]%string.

(** [__init__]: an absent or empty keyword list selects the defaults. *)
Definition init (max_tokens max_messages summarize_threshold : Z)
    (important_keywords : option (list string)) : ConversationMemory :=
  {| max_tokens := max_tokens;
     max_messages := max_messages;
     summarize_threshold := summarize_threshold;
     important_keywords :=
       match important_keywords with
       | None | Some [] => default_keywords
       | Some kws => kws
       end;
     messages := [];
     summary := None;
     total_tokens := 0;
     next_ident := 0 |}.

Definition set_messages (msgs : list Message) (total : Z) (fresh : nat)
    (m : ConversationMemory) : ConversationMemory :=
  {| max_tokens := max_tokens m;
     max_messages := max_messages m;
     summarize_threshold := summarize_threshold m;
     important_keywords := important_keywords m;
     messages := msgs;
     summary := summary m;
     total_tokens := total;
     next_ident := fresh |}.

(** [_estimate_tokens] *)
Definition estimate_tokens (text : string) : Z :=
  Z.of_nat (String.length text) / 4.

(** [_is_important] *)
Definition is_important (keywords : list string) (content : string) : bool :=
  existsb (fun keyword => Py.contains keyword (Py.lower content)) keywords.

(** [_calculate_total_tokens], also the [sum(...)] of the summarizer *)
Definition calculate_total_tokens (msgs : list Message) : Z :=
  foldr Z.add 0 (tokens <$> msgs).

(** [_create_summary] *)
Definition summary_part (msg : Message) : string :=
  let c := content msg in
  let c' := if (100 <? String.length c)%nat
            then String.append (String.substring 0 100 c) "..."
            else c in
  String.append (Py.capitalize (role msg)) (String.append ": " c').

Definition create_summary (msgs : list Message) : string :=
  Py.join " | " (summary_part <$> msgs).

(** [_summarize_old_messages]; [now] is the clock reading taken for the
    summary message. *)
Definition summarize_old_messages (now : string) (m : ConversationMemory)
    : ConversationMemory :=
  if (length (messages m) <=? 2)%nat then m
  else
    let to_summarize := Py.slice_to (-4) (messages m) in
    let recent := Py.slice_from (-4) (messages m) in
    match to_summarize with
    | [] => m
    | _ =>
        let summary_text := create_summary to_summarize in
        let msgs :=
          {| ident := next_ident m;
             role := "system";
             content :=
               String.append "Previous conversation summary: " summary_text;
             timestamp := now;
             tokens := estimate_tokens summary_text;
             important := false;
             is_summary := true |} :: recent in
        set_messages msgs (calculate_total_tokens msgs) (S (next_ident m)) m
    end.

(** The loop that keeps the first occurrence of every object of
    [important + recent]; [seen] is the set of identities met so far. *)
Fixpoint dedup (seen : gset nat) (msgs : list Message) : list Message :=
  match msgs with
  | [] => []
  | msg :: rest =>
      if bool_decide (ident msg ∈ seen) then dedup seen rest
      else msg :: dedup ({[ident msg]} ∪ seen) rest
  end.

(** [list.sort(key=timestamp)]: a stable sort on the timestamp strings. *)
Fixpoint insert_by_timestamp (x : Message) (l : list Message) : list Message :=
  match l with
  | [] => [x]
  | y :: r =>
      if String.ltb (timestamp y) (timestamp x)
      then y :: insert_by_timestamp x r
      else x :: y :: r
  end.

Definition sort_by_timestamp (l : list Message) : list Message :=
  foldr insert_by_timestamp [] l.

Definition combine_important_recent (recent_from : Z) (msgs : list Message)
    : list Message :=
  let important_msgs := filter (fun msg => important msg = true) msgs in
  let recent := Py.slice_from recent_from msgs in
  sort_by_timestamp (dedup ∅ (important_msgs ++ recent)).

(** The [while] loop of [_compress_context]: [pop(0)] while the total is
    over the ceiling and more than two messages are left. *)
Fixpoint trim_until_under (limit : Z) (combined : list Message)
    : list Message :=
  match combined with
  | [] => []
  | msg :: rest =>
      if (limit <? calculate_total_tokens (msg :: rest))
         && (2 <? length (msg :: rest))%nat
      then trim_until_under limit rest
      else msg :: rest
  end.

(** [_compress_context] *)
Definition compress_context (m : ConversationMemory) : ConversationMemory :=
  let combined := combine_important_recent (-4) (messages m) in
  let kept := trim_until_under (max_tokens m) combined in
  set_messages kept (calculate_total_tokens kept) (next_ident m) m.

(** [_trim_messages] *)
Definition trim_messages (m : ConversationMemory) : ConversationMemory :=
  let combined := combine_important_recent (- max_messages m) (messages m) in
  let kept := Py.slice_from (- max_messages m) combined in
  set_messages kept (calculate_total_tokens kept) (next_ident m) m.

(** [_manage_memory] *)
Definition manage_memory (now : string) (m : ConversationMemory)
    : ConversationMemory :=
  let m1 := if summarize_threshold m <? Py.len (messages m)
            then summarize_old_messages now m else m in
  let m2 := if max_tokens m1 <? total_tokens m1
            then compress_context m1 else m1 in
  if max_messages m2 <? Py.len (messages m2) then trim_messages m2 else m2.

(** [add_message]; [now] is the clock reading stored in the new message,
    [now'] the one a summarization in the same call would take. *)
Definition add_message (role content : string) (now now' : string)
    (m : ConversationMemory) : ConversationMemory :=
  let message :=
    {| ident := next_ident m;
       role := role;
       content := content;
       timestamp := now;
       tokens := estimate_tokens content;
       important := is_important (important_keywords m) content;
       is_summary := false |} in
  manage_memory now'
    (set_messages (messages m ++ [message])
                  (total_tokens m + tokens message)
                  (S (next_ident m)) m).

(** What the caller of [get_context] receives for one message. *)
Record ContextEntry : Type := mkEntry {
  entry_role : string;
  entry_content : string
}.

(** [{'role': msg['role'], 'content': msg['content']}] *)
Definition entry_of (msg : Message) : ContextEntry :=
  {| entry_role := role msg; entry_content := content msg |}.

(** The selection loop of [get_context] over [reversed(self.messages)]. *)
Fixpoint select_recent (limit : Z) (reversed : list Message)
    (token_count : Z) (selected : list Message) : list Message :=
  match reversed with
  | [] => selected
  | msg :: rest =>
      if token_count + tokens msg <=? limit
      then select_recent limit rest (token_count + tokens msg) (msg :: selected)
      else selected
  end.

(** [get_context]; [max_tokens or self.max_tokens] takes the configured
    ceiling when the argument is [None] and also when it is [0]. *)
Definition get_context (limit : option Z) (m : ConversationMemory)
    : list ContextEntry :=
  let limit :=
    match limit with
    | None => max_tokens m
    | Some l => if l =? 0 then max_tokens m else l
    end in
  let selected := select_recent limit (rev (messages m)) 0 [] in
  entry_of <$> selected.

(** [clear] *)
Definition clear (m : ConversationMemory) : ConversationMemory :=
  {| max_tokens := max_tokens m;
     max_messages := max_messages m;
     summarize_threshold := summarize_threshold m;
     important_keywords := important_keywords m;
     messages := [];
     summary := None;
     total_tokens := 0;
     next_ident := next_ident m |}.

(** The invariant of the running total. *)
Definition total_ok (m : ConversationMemory) : Prop :=
  total_tokens m = calculate_total_tokens (messages m).

(** No token estimate is negative. *)
Definition tokens_ok (m : ConversationMemory) : Prop :=
  Forall (fun msg => 0 <= tokens msg) (messages m).

#[global] Instance message_eq_dec : EqDecision Message.
Proof. solve_decision. Defined.

(** A run of [add_message] calls, each with its two clock readings. *)
Record Call : Type := mkCall {
  call_role : string;
  call_content : string;
  call_now : string;
  call_now' : string
}.

Definition run (calls : list Call) (m : ConversationMemory)
    : ConversationMemory :=
  foldl (fun acc c =>
           add_message (call_role c) (call_content c)
                       (call_now c) (call_now' c) acc) m calls.

(** [get_stats] *)
Record Stats : Type := mkStats {
  stat_total_messages : Z;
  stat_total_tokens : Z;
  stat_max_tokens : Z;
  stat_max_messages : Z;
  stat_has_summary : bool;
  stat_important_messages : Z
}.

Definition get_stats (m : ConversationMemory) : Stats :=
  {| stat_total_messages := Py.len (messages m);
     stat_total_tokens := total_tokens m;
     stat_max_tokens := max_tokens m;
     stat_max_messages := max_messages m;
     stat_has_summary := match summary m with Some _ => true | None => false end;
     stat_important_messages :=
       Py.len (filter (fun msg => important msg = true) (messages m)) |}.

(** [earlier x y]: the timestamp of [x] sorts strictly before that of [y]. *)
Definition earlier (x y : Message) : Prop :=
  String.ltb (timestamp x) (timestamp y) = true.

(** Messages that are distinct objects with strictly increasing
    timestamps. *)
Definition chronological (l : list Message) : Prop :=
  StronglySorted earlier l /\ NoDup (ident <$> l).

(** What the union of [important] and [recent] is taken from. *)
Definition kept_by (from : Z) (l : list Message) (x : Message) : Prop :=
  important x = true \/ x ∈ Py.slice_from from l.

#[global] Instance kept_by_dec from l x : Decision (kept_by from l x).
Proof. unfold kept_by. apply _. Defined.

(** No retained message is a summary. *)
Definition plain (m : ConversationMemory) : Prop :=
  Forall (fun msg => is_summary msg = false) (messages m).

(** The message [add_message] builds for a call, as the object number [i]. *)
Definition message_of (keywords : list string) (i : nat) (c : Call) : Message :=
  {| ident := i;
     role := call_role c;
     content := call_content c;
     timestamp := call_now c;
     tokens := estimate_tokens (call_content c);
     important := is_important keywords (call_content c);
     is_summary := false |}.

Definition all_messages (keywords : list string) (calls : list Call)
    : list Message :=
  imap (message_of keywords) calls.

(** The calls of a run come with strictly increasing clock readings. *)
Definition ticking (calls : list Call) : Prop :=
  StronglySorted (fun c1 c2 => String.ltb (call_now c1) (call_now c2) = true)
                 calls.

End Memory.

(** ** ContextAnalyzer ([app/services/context_analyzer.py]) *)

Module Context.

Import Memory.

Definition context_keywords : list string :=
  ["it"; "that"; "this"; "them"; "those"; "these";
   "what about"; "how about"; "and"; "also"; "too";
   "previous"; "earlier"; "before"; "mentioned"; "said";
   "same"; "similar"; "like that"; "as well";
   "follow up"; "continue"; "more"; "else";
   "what else"; "anything else"; "other"; "another"]%string.

(** The literal prefixes of [standalone_patterns]; each pattern is
    [^prefix\s+]. *)
Definition standalone_prefixes : list string :=
  ["what is"; "what are"; "who is"; "where is"; "when did"; "how do";
   "tell me about"; "explain"; "define"; "describe"]%string.

Definition reference_words : list string :=
  [" it "; " that "; " this "; " them "; " those "; " these "; " they ";
   " its "; " their "]%string.

Definition strong_references : list string :=
  [" it "; " that "; " this "; " them "; " those "; " these "; " they "]%string.

Definition follow_up_indicators : list string :=
  ["what about"; "how about"; "and"; "also"; "too";
   "what else"; "anything else"; "more about"; "tell me more";
   "continue"; "go on"; "keep going"]%string.

Definition common_words : list string :=
  ["the"; "a"; "an"; "is"; "are"; "was"; "were"; "be"; "been";
   "have"; "has"; "had"; "do"; "does"; "did"; "will"; "would";
   "can"; "could"; "should"; "may"; "might"; "this"; "that";
   "these"; "those"; "i"; "you"; "he"; "she"; "it"; "we"; "they"]%string.

Definition common_words_text : list string :=
  common_words ++ ["what"; "where"; "when"; "who"; "how"; "why"]%string.

(** [any(p in text for p in phrases)] *)
Definition any_in (phrases : list string) (text : string) : bool :=
  existsb (fun p => Py.contains p text) phrases.

(** [" " + s + " "] *)
Definition pad (s : string) : string :=
  String.append " " (String.append s " ").

(** The maximal runs of word characters of a text, left to right. *)
Fixpoint word_runs (s : string) : list string :=
  match s with
  | EmptyString => []
  | String c r =>
      let ws := word_runs r in
      if Py.is_word c then
        match r, ws with
        | String c' _, w :: ws' =>
            if Py.is_word c' then String c w :: ws'
            else String c EmptyString :: ws
        | _, _ => String c EmptyString :: ws
        end
      else ws
  end.

Fixpoint all_chars (p : ascii -> bool) (s : string) : bool :=
  match s with
  | EmptyString => true
  | String c r => p c && all_chars p r
  end.

(** [re.findall(r'\b[a-z]{4,}\b', text)]: a match starts and ends at a
    word boundary and takes lower-case letters only, so the matches are
    the runs of word characters made of at least four lower-case letters. *)
Definition findall_words (text : string) : list string :=
  List.filter (fun w => all_chars Py.is_lower w && (4 <=? String.length w)%nat)
              (word_runs text).

Definition significant (stop : list string) (text : string) : list string :=
  List.filter (fun w => negb (bool_decide (w ∈ stop))) (findall_words text).

(** [_extract_topics] *)
Definition extract_topics (msgs : list ContextEntry) : list string :=
  flat_map (fun msg =>
              Py.slice_to 5 (significant common_words
                                         (Py.lower (entry_content msg))))
           msgs.

(** [_extract_topics_from_text] *)
Definition extract_topics_from_text (text : string) : list string :=
  Py.slice_to 5 (significant common_words_text (Py.lower text)).

(** [set(recent_topics) & set(question_topics)] *)
Definition topic_overlap (recent_topics question_topics : list string)
    : gset string :=
  list_to_set recent_topics ∩ list_to_set question_topics.

(** [_is_follow_up] *)
Definition is_follow_up (question : string) : bool :=
  any_in follow_up_indicators question.

(** [re.match(r'^prefix\s+', q, re.IGNORECASE)] on a lower-cased [q] *)
Definition matches_standalone (q prefix : string) : bool :=
  Py.startswith q prefix
  && match String.get (String.length prefix) q with
     | Some c => Py.is_space c
     | None => false
     end.

(** [_is_standalone_question] *)
Definition is_standalone_question (question : string) : bool :=
  let question_lower := Py.lower question in
  existsb (matches_standalone question_lower) standalone_prefixes.

(** [_references_previous] *)
Definition references_previous (question : string)
    (history : list ContextEntry) : bool :=
  let question_with_spaces := pad (Py.lower question) in
  let has_strong_reference := any_in strong_references question_with_spaces in
  let question_lower := Py.lower question in
  let has_strong_reference :=
    if Py.startswith question_lower "what is it"
       || (Py.startswith question_lower "how do i"
           && Py.contains " it" question_lower)
    then true else has_strong_reference in
  if has_strong_reference then true
  else
    let has_reference := any_in context_keywords question in
    if negb has_reference then false
    else
      let recent_topics := extract_topics (Py.slice_from (-4) history) in
      let question_topics := extract_topics_from_text question in
      let overlapping :=
        match recent_topics, question_topics with
        | _ :: _, _ :: _ =>
            negb (bool_decide (topic_overlap recent_topics question_topics = ∅))
        | _, _ => false
        end in
      if overlapping then true else has_reference.

(** [needs_context] *)
Definition needs_context (current_question : string)
    (conversation_history : list ContextEntry) : bool :=
  match conversation_history with
  | [] => false
  | _ :: _ =>
      let question_lower := Py.strip (Py.lower current_question) in
      let question_with_spaces := pad question_lower in
      let has_reference_word := any_in reference_words question_with_spaces in
      if has_reference_word then true
      else if is_follow_up question_lower then true
      else if references_previous question_lower conversation_history then true
      else if is_standalone_question question_lower then false
      else false
  end.

(** [get_relevant_context] *)
Definition get_relevant_context (current_question : string)
    (conversation_history : list ContextEntry) (max_messages : Z)
    : option (list ContextEntry) :=
  if negb (needs_context current_question conversation_history) then None
  else if max_messages <=? Py.len conversation_history
       then Some (Py.slice_from (- max_messages) conversation_history)
       else Some conversation_history.

(** The reading of the specification: a token occurs in a question as a
    whole word when one of the words of the lower-cased question, cut at
    every character that is not a word character, is that token. *)
Definition spec_pronouns : list string :=
  ["it"; "that"; "this"; "them"; "those"; "these"; "they"; "its"; "their"]%string.

Definition spec_has_whole_word_pronoun (question : string) : bool :=
  existsb (fun w => bool_decide (w ∈ spec_pronouns))
          (word_runs (Py.lower question)).

(** What [_references_previous] answers, without the history. *)
Definition strong_reference (question : string) : bool :=
  Py.startswith (Py.lower question) "what is it"
  || (Py.startswith (Py.lower question) "how do i"
      && Py.contains " it" (Py.lower question))
  || any_in strong_references (pad (Py.lower question)).

End Context.

(** ** RateLimiter ([app/middleware/rate_limiter.py]) *)

Module RateLimit.

Record RateLimiter : Type := mkLimiter {
  requests_per_minute : Z;
  requests_per_hour : Z;
  requests_per_day : Z;
  request_history : gmap string (list Q)
}.

(** [__init__] *)
Definition init (per_minute per_hour per_day : Z) : RateLimiter :=
  {| requests_per_minute := per_minute;
     requests_per_hour := per_hour;
     requests_per_day := per_day;
     request_history := ∅ |}.

Definition default_limiter : RateLimiter := init 10 100 1000.

(** Reading [self.request_history[identifier]] of the [defaultdict]. *)
Definition history_of (identifier : string) (rl : RateLimiter) : list Q :=
  default [] (request_history rl !! identifier).

Definition set_history (identifier : string) (h : list Q)
    (rl : RateLimiter) : RateLimiter :=
  {| requests_per_minute := requests_per_minute rl;
     requests_per_hour := requests_per_hour rl;
     requests_per_day := requests_per_day rl;
     request_history := <[identifier := h]> (request_history rl) |}.

(** [ts > cutoff] *)
Definition later_than (cutoff ts : Q) : bool := negb (Qle_bool ts cutoff).

(** [[ts for ts in history if ts > now - window]] *)
Definition within (window : Q) (now : Q) (history : list Q) : list Q :=
  List.filter (later_than (now - window)%Q) history.

Definition exceeded_message (limit : Z) (period : string) : string :=
  String.append "Rate limit exceeded: "
    (String.append (Py.str_of_int limit)
       (String.append " requests per " period)).

(** [is_allowed]; [current_time] is the argument, or the reading of
    [time.time()] when the caller passes none. *)
Definition is_allowed (identifier : string) (current_time : Q)
    (rl : RateLimiter) : (bool * option string) * RateLimiter :=
  let history := within 86400 current_time (history_of identifier rl) in
  let rl := set_history identifier history rl in
  if requests_per_minute rl <=? Py.len (within 60 current_time history)
  then ((false, Some (exceeded_message (requests_per_minute rl) "minute")), rl)
  else if requests_per_hour rl <=? Py.len (within 3600 current_time history)
  then ((false, Some (exceeded_message (requests_per_hour rl) "hour")), rl)
  else if requests_per_day rl <=? Py.len (within 86400 current_time history)
  then ((false, Some (exceeded_message (requests_per_day rl) "day")), rl)
  else ((true, None), set_history identifier (history ++ [current_time]) rl).

(** [get_remaining_requests]; [current_time] is the reading of
    [time.time()], and the read of the [defaultdict] creates the key. *)
Definition get_remaining_requests (identifier period : string)
    (current_time : Q) (rl : RateLimiter) : Z * RateLimiter :=
  let go (limit : Z) (window : Q) :=
    (Z.max 0 (limit - Py.len (within window current_time
                                     (history_of identifier rl))),
     set_history identifier (history_of identifier rl) rl) in
  if String.eqb period "minute" then go (requests_per_minute rl) 60%Q
  else if String.eqb period "hour" then go (requests_per_hour rl) 3600%Q
  else if String.eqb period "day" then go (requests_per_day rl) 86400%Q
  else (0, rl).

(** [reset] *)
Definition reset (identifier : string) (rl : RateLimiter) : RateLimiter :=
  {| requests_per_minute := requests_per_minute rl;
     requests_per_hour := requests_per_hour rl;
     requests_per_day := requests_per_day rl;
     request_history := delete identifier (request_history rl) |}.

(** Successive [is_allowed] calls of one identifier, with their results. *)
Fixpoint run_calls (identifier : string) (times : list Q) (rl : RateLimiter)
    : list (bool * option string) * RateLimiter :=
  match times with
  | [] => ([], rl)
  | t :: rest =>
      let '(r, rl1) := is_allowed identifier t rl in
      let '(rs, rl2) := run_calls identifier rest rl1 in
      (r :: rs, rl2)
  end.

(** Comparison of two clock readings is decidable, so that the stored
    timestamps of a window can be counted by their defining condition. *)
#[global] Instance Qlt_decision : RelDecision Qlt :=
  fun x y =>
    match Qlt_le_dec x y with
    | left H => left H
    | right H => right (Qle_not_lt _ _ H)
    end.

(** The three window counts of an identifier at a time. *)
Definition minute_count (identifier : string) (now : Q) (rl : RateLimiter) : Z :=
  Py.len (within 60 now (history_of identifier rl)).
Definition hour_count (identifier : string) (now : Q) (rl : RateLimiter) : Z :=
  Py.len (within 3600 now (history_of identifier rl)).
Definition day_count (identifier : string) (now : Q) (rl : RateLimiter) : Z :=
  Py.len (within 86400 now (history_of identifier rl)).

(** The operations of a limiter, with the clock reading each one takes. *)
Inductive Op : Type :=
| OpAllowed (identifier : string) (current_time : Q)
| OpRemaining (identifier period : string) (current_time : Q)
| OpReset (identifier : string).

Definition step (op : Op) (rl : RateLimiter) : RateLimiter :=
  match op with
  | OpAllowed identifier t => snd (is_allowed identifier t rl)
  | OpRemaining identifier period t =>
      snd (get_remaining_requests identifier period t rl)
  | OpReset identifier => reset identifier rl
  end.

Definition run_ops (ops : list Op) (rl : RateLimiter) : RateLimiter :=
  foldl (fun acc op => step op acc) rl ops.

(** No identifier has more stored timestamps than the daily ceiling. *)
Definition bounded (rl : RateLimiter) : Prop :=
  forall id, Py.len (history_of id rl) <= Z.max 0 (requests_per_day rl).

End RateLimit.

(** ** UserSession and SessionManager ([app/models/session.py]) *)

Module Sessions.

(** Times are [datetime] values counted in microseconds. *)
Record UserSession : Type := mkSession {
  session_id : string;
  user_id : string;
  created_at : Z;
  last_activity : Z;
  conversation_count : Z;
  is_active : bool
}.

(** [objects] holds the session objects by reference, so that a session
    removed from [sessions] is still seen by whoever holds it. *)
Record SessionManager : Type := mkManager {
  objects : gmap nat UserSession;
  sessions : gmap string nat;
  session_timeout_minutes : Z;
  next_ref : nat
}.

Definition init (session_timeout_minutes : Z) : SessionManager :=
  {| objects := ∅; sessions := ∅;
     session_timeout_minutes := session_timeout_minutes;
     next_ref := 0 |}.

(** [timedelta(minutes=m)] in microseconds *)
Definition minutes (m : Z) : Z := m * 60000000.

(** [UserSession.update_activity] *)
Definition update_activity (now : Z) (s : UserSession) : UserSession :=
  {| session_id := session_id s; user_id := user_id s;
     created_at := created_at s; last_activity := now;
     conversation_count := conversation_count s;
     is_active := is_active s |}.

(** [UserSession.deactivate] *)
Definition deactivate (s : UserSession) : UserSession :=
  {| session_id := session_id s; user_id := user_id s;
     created_at := created_at s; last_activity := last_activity s;
     conversation_count := conversation_count s;
     is_active := false |}.

Definition or_else (given : option string) (generated : string) : string :=
  match given with
  | None | Some EmptyString => generated
  | Some s => s
  end.

(** [create_session]; [uuid] and [hex] are the two generated
    identifiers, [now] and [now'] the two clock readings. *)
Definition create_session (sid uid : option string) (uuid hex : string)
    (now now' : Z) (mgr : SessionManager) : nat * SessionManager :=
  let session :=
    {| session_id := or_else sid uuid;
       user_id := or_else uid (String.append "user_" (String.substring 0 8 hex));
       created_at := now; last_activity := now';
       conversation_count := 0; is_active := true |} in
  (next_ref mgr,
   {| objects := <[next_ref mgr := session]> (objects mgr);
      sessions := <[session_id session := next_ref mgr]> (sessions mgr);
      session_timeout_minutes := session_timeout_minutes mgr;
      next_ref := S (next_ref mgr) |}).

(** [get_session] *)
Definition get_session (sid : string) (now : Z) (mgr : SessionManager)
    : option nat * SessionManager :=
  match sessions mgr !! sid with
  | Some r =>
      (Some r,
       {| objects := alter (update_activity now) r (objects mgr);
          sessions := sessions mgr;
          session_timeout_minutes := session_timeout_minutes mgr;
          next_ref := next_ref mgr |})
  | None => (None, mgr)
  end.

(** [remove_session] *)
Definition remove_session (sid : string) (mgr : SessionManager)
    : SessionManager :=
  match sessions mgr !! sid with
  | Some r =>
      {| objects := alter deactivate r (objects mgr);
         sessions := delete sid (sessions mgr);
         session_timeout_minutes := session_timeout_minutes mgr;
         next_ref := next_ref mgr |}
  | None => mgr
  end.

(** [session.last_activity < cutoff_time] for the object behind [r] *)
Definition idle_before (cutoff : Z) (mgr : SessionManager) (r : nat) : bool :=
  match objects mgr !! r with
  | Some s => last_activity s <? cutoff
  | None => false
  end.

Definition cutoff_time (now : Z) (mgr : SessionManager) : Z :=
  now - minutes (session_timeout_minutes mgr).

(** The list [inactive] of [cleanup_inactive_sessions] *)
Definition inactive_ids (now : Z) (mgr : SessionManager) : list string :=
  fst <$> List.filter (fun kv => idle_before (cutoff_time now mgr) mgr (snd kv))
                      (map_to_list (sessions mgr)).

(** [for sid in inactive: self.remove_session(sid)] *)
Definition remove_all (sids : list string) (mgr : SessionManager)
    : SessionManager :=
  foldl (fun acc sid => remove_session sid acc) mgr sids.

(** [cleanup_inactive_sessions]; [now] is the clock reading. *)
Definition cleanup_inactive_sessions (now : Z) (mgr : SessionManager)
    : SessionManager :=
  remove_all (inactive_ids now mgr) mgr.

(** Whether one of the identifiers of [sids] is registered to the object
    behind [r]. *)
Definition refers (sids : list string) (mgr : SessionManager) (r : nat) : Prop :=
  Exists (fun sid => sessions mgr !! sid = Some r) sids.

(** The session record registered under an identifier. *)
Definition lookup_session (sid : string) (mgr : SessionManager)
    : option UserSession :=
  r ← sessions mgr !! sid; objects mgr !! r.

(** [session_id and session_id in self.sessions] *)
Definition known (sid : option string) (mgr : SessionManager) : option nat :=
  match sid with
  | None | Some EmptyString => None
  | Some s => sessions mgr !! s
  end.

(** [get_or_create_session]; the clock readings and generated identifiers
    are those of [create_session], [now] also serving the refresh. *)
Definition get_or_create_session (sid : option string) (uuid hex : string)
    (now now' : Z) (mgr : SessionManager) : nat * SessionManager :=
  match known sid mgr with
  | Some r =>
      (r,
       {| objects := alter (update_activity now) r (objects mgr);
          sessions := sessions mgr;
          session_timeout_minutes := session_timeout_minutes mgr;
          next_ref := next_ref mgr |})
  | None => create_session sid None uuid hex now now' mgr
  end.

(** [UserSession.increment_conversation] *)
Definition increment_conversation (now : Z) (s : UserSession) : UserSession :=
  update_activity now
    {| session_id := session_id s; user_id := user_id s;
       created_at := created_at s; last_activity := last_activity s;
       conversation_count := conversation_count s + 1;
       is_active := is_active s |}.

(** [s.is_active] for the object behind a reference *)
Definition active_ref (mgr : SessionManager) (r : nat) : bool :=
  match objects mgr !! r with
  | Some s => is_active s
  | None => false
  end.

(** [get_active_sessions_count] *)
Definition get_active_sessions_count (mgr : SessionManager) : Z :=
  Py.len (List.filter (fun kv => active_ref mgr (snd kv))
                      (map_to_list (sessions mgr))).

(** [len(self.sessions)], the [total_sessions] of [get_stats] *)
Definition total_sessions (mgr : SessionManager) : Z :=
  Z.of_nat (size (sessions mgr)).

(** What the manager and the holders of its sessions do to it. *)
Inductive Op : Type :=
| OpCreate (sid uid : option string) (uuid hex : string) (now now' : Z)
| OpGet (sid : string) (now : Z)
| OpGetOrCreate (sid : option string) (uuid hex : string) (now now' : Z)
| OpRemove (sid : string)
| OpCleanup (now : Z)
| OpIncrement (r : nat) (now : Z).

Definition step (op : Op) (mgr : SessionManager) : SessionManager :=
  match op with
  | OpCreate sid uid uuid hex now now' =>
      snd (create_session sid uid uuid hex now now' mgr)
  | OpGet sid now => snd (get_session sid now mgr)
  | OpGetOrCreate sid uuid hex now now' =>
      snd (get_or_create_session sid uuid hex now now' mgr)
  | OpRemove sid => remove_session sid mgr
  | OpCleanup now => cleanup_inactive_sessions now mgr
  | OpIncrement r now =>
      {| objects := alter (increment_conversation now) r (objects mgr);
         sessions := sessions mgr;
         session_timeout_minutes := session_timeout_minutes mgr;
         next_ref := next_ref mgr |}
  end.

Definition run_ops (ops : list Op) (mgr : SessionManager) : SessionManager :=
  foldl (fun acc op => step op acc) mgr ops.

(** Every registered session is a live object, active, registered under
    its own identifier and under no other. *)
Definition registry_ok (mgr : SessionManager) : Prop :=
  (forall sid r,
      sessions mgr !! sid = Some r ->
      (r < next_ref mgr)%nat
      /\ exists s, objects mgr !! r = Some s
                   /\ is_active s = true /\ session_id s = sid)
  /\ (forall sid1 sid2 r,
        sessions mgr !! sid1 = Some r -> sessions mgr !! sid2 = Some r ->
        sid1 = sid2).

End Sessions.

(** ** ReconnectionManager ([app/services/reconnection_manager.py]) *)

Module Reconnect.

(** What a run of [attempt_reconnect] does to the outside: it sleeps and
    it invokes the reconnect action. *)
Inductive Event : Type :=
| Sleep (delay : Z)
| Invoke (attempt : Z).

(** [auto_reconnect] is the user preference [connection.auto_reconnect]
    as [attempt_reconnect] reads it. *)
Record ReconnectionManager : Type := mkReconnect {
  auto_reconnect : bool;
  reconnect_attempts : Z;
  max_attempts : Z;
  base_delay : Z;
  is_reconnecting : bool
}.

(** The reconnect action: whether its invocation at a given attempt
    returns ([true]) or raises ([false]). *)
Definition Action : Type := Z -> bool.

(** The [for] loop: [remaining] attempts are left, the next is [attempt]. *)
Fixpoint attempt_loop (remaining : nat) (attempt : Z) (max_attempts base_delay : Z)
    (reconnect_func : Action) : bool * list Event :=
  match remaining with
  | O => (false, [])
  | S remaining' =>
      let delay := base_delay * 2 ^ (attempt - 1) in
      if reconnect_func attempt
      then (true, [Sleep delay; Invoke attempt])
      else if attempt =? max_attempts
      then (false, [Sleep delay; Invoke attempt])
      else
        let '(ok, events) :=
          attempt_loop remaining' (attempt + 1) max_attempts base_delay
                       reconnect_func in
        (ok, Sleep delay :: Invoke attempt :: events)
  end.

Definition finish (ok : bool) (mgr : ReconnectionManager)
    : ReconnectionManager :=
  {| auto_reconnect := auto_reconnect mgr;
     reconnect_attempts := if ok then 0 else reconnect_attempts mgr;
     max_attempts := max_attempts mgr;
     base_delay := base_delay mgr;
     is_reconnecting := false |}.

(** [attempt_reconnect]: the result, the events in order, the manager
    afterwards. *)
Definition attempt_reconnect (reconnect_func : Action)
    (mgr : ReconnectionManager) : bool * list Event * ReconnectionManager :=
  if negb (auto_reconnect mgr) then (false, [], mgr)
  else if is_reconnecting mgr then (false, [], mgr)
  else
    let '(ok, events) :=
      attempt_loop (Z.to_nat (max_attempts mgr)) 1
                   (max_attempts mgr) (base_delay mgr) reconnect_func in
    (ok, events, finish ok mgr).

Definition invocations (events : list Event) : nat :=
  length (List.filter (fun e => match e with Invoke _ => true | _ => false end)
                      events).

Definition delays (events : list Event) : list Z :=
  flat_map (fun e => match e with Sleep d => [d] | _ => [] end) events.

(** The events of [n] successive attempts, the first numbered [attempt]:
    before attempt [i] a sleep of [base_delay * 2^(i-1)]. *)
Fixpoint backoff_from (base_delay : Z) (attempt : Z) (n : nat) : list Event :=
  match n with
  | O => []
  | S n' =>
      Sleep (base_delay * 2 ^ (attempt - 1)) :: Invoke attempt
        :: backoff_from base_delay (attempt + 1) n'
  end.

Definition backoff_events (base_delay : Z) (n : nat) : list Event :=
  backoff_from base_delay 1 n.

(** [reset] *)
Definition reset (mgr : ReconnectionManager) : ReconnectionManager :=
  {| auto_reconnect := auto_reconnect mgr;
     reconnect_attempts := 0;
     max_attempts := max_attempts mgr;
     base_delay := base_delay mgr;
     is_reconnecting := false |}.

(** The time a run spends asleep. *)
Definition total_delay (events : list Event) : Z :=
  foldr Z.add 0 (delays events).

End Reconnect.

(** ** UserPreferences ([app/services/user_preferences.py]) *)

Module Preferences.

Section Values.

(** The values a preference file holds, and a time stamp as one of them. *)
Variable Value : Type.
Variable text : string -> Value.

(** What a top-level key of the preferences holds: a dictionary of
    settings, or anything else (as ["updated_at"] does). *)
Inductive Entry : Type :=
| Group (settings : gmap string Value)
| Scalar (v : Value).

Inductive Error : Type :=
| AttributeError
| TypeError.

(** [get_preference]: [self.preferences.get(category, {}).get(key, default)];
    [fallback] is the argument [default]. *)
Definition get_preference (category key : string) (fallback : Value)
    (preferences : gmap string Entry) : Value + Error :=
  match preferences !! category with
  | None => inl fallback
  | Some (Group settings) => inl (default fallback (settings !! key))
  | Some (Scalar _) => inr AttributeError
  end.

(** [set_preference]; [now] is the clock reading written to
    ["updated_at"].  Saving to the file cannot fail the call. *)
Definition set_preference (category key : string) (value : Value)
    (now : string) (preferences : gmap string Entry)
    : gmap string Entry + Error :=
  match preferences !! category with
  | None =>
      inl (<["updated_at"%string := Scalar (text now)]>
             (<[category := Group {[key := value]}]> preferences))
  | Some (Group settings) =>
      inl (<["updated_at"%string := Scalar (text now)]>
             (<[category := Group (<[key := value]> settings)]> preferences))
  | Some (Scalar _) => inr TypeError
  end.

End Values.

Arguments Group {Value}.
Arguments Scalar {Value}.
Arguments get_preference {Value}.
Arguments set_preference {Value}.

End Preferences.

(** ** The turn of the voice pipeline ([app/ws.py]) *)

Module Pipeline.

Import Memory Context.

(** The choice of the context for one turn in [voice_pipeline]
    ([app/ws.py]): the history is [memory.get_context(max_tokens=2000)],
    and the context is the relevant part of it, or [None]. *)
Definition turn_context (text : string) (memory : ConversationMemory)
    : option (list ContextEntry) :=
  let full_history := get_context (Some 2000) memory in
  if needs_context text full_history
  then get_relevant_context text full_history 2
  else None.

End Pipeline.

(** ** Concrete states used to exercise the model *)

Module Scenarios.

Import Memory.

(** A memory that keeps no message at all, by configuration. *)
Definition keep_nothing : ConversationMemory := Memory.init 2000 0 15 None.

(** Five messages of five tokens each under a ceiling of twenty-two, as
    [add_message] hands them to the compression pass: the first and the
    third are important. *)
Definition note (i : nat) (r c t : string) (imp : bool) : Message :=
  {| ident := i; role := r; content := c; timestamp := t;
     tokens := 5; important := imp; is_summary := false |}.

Definition msg_a := note 0 "user" "remember the blue door" "2024-05-01T10:00:00.000001" true.
Definition msg_b := note 1 "assistant" "the door is blue, yes" "2024-05-01T10:00:01.000001" false.
Definition msg_c := note 2 "user" "important: red is next" "2024-05-01T10:00:02.000001" true.
Definition msg_d := note 3 "assistant" "red follows blue then" "2024-05-01T10:00:03.000001" false.
Definition msg_e := note 4 "user" "and green comes after?" "2024-05-01T10:00:04.000001" false.

Definition crowded : ConversationMemory :=
  {| max_tokens := 22; max_messages := 10; summarize_threshold := 15;
     important_keywords := default_keywords;
     messages := [msg_a; msg_b; msg_c; msg_d; msg_e];
     summary := None; total_tokens := 25; next_ident := 5 |}.

(** One message of one token under the default ceiling. *)
Definition one_turn : ConversationMemory :=
  add_message "user" "abcd" "2024-05-01T10:00:00.000001"
              "2024-05-01T10:00:00.000002" (Memory.init 2000 10 15 None).

Definition greeting : list ContextEntry :=
  [{| entry_role := "user"; entry_content := "hello there world" |}].

(** Two sessions under a timeout of thirty minutes, the first idle since
    time zero, the second active at minute twenty. *)
Definition two_sessions : Sessions.SessionManager :=
  snd (Sessions.create_session (Some "b"%string) None "uuid-b" "89abcdef01234567"
         0 (Sessions.minutes 20)
         (snd (Sessions.create_session (Some "a"%string) None "uuid-a"
                 "0123456789abcdef" 0 0 (Sessions.init 30)))).

Definition session_a : Sessions.UserSession :=
  {| Sessions.session_id := "a"; Sessions.user_id := "user_01234567";
     Sessions.created_at := 0; Sessions.last_activity := 0;
     Sessions.conversation_count := 0; Sessions.is_active := true |}.

Definition session_b : Sessions.UserSession :=
  {| Sessions.session_id := "b"; Sessions.user_id := "user_89abcdef";
     Sessions.created_at := 0; Sessions.last_activity := Sessions.minutes 20;
     Sessions.conversation_count := 0; Sessions.is_active := true |}.

Definition three_tries : Reconnect.ReconnectionManager :=
  {| Reconnect.auto_reconnect := true; Reconnect.reconnect_attempts := 0;
     Reconnect.max_attempts := 3; Reconnect.base_delay := 1;
     Reconnect.is_reconnecting := false |}.

Definition no_auto : Reconnect.ReconnectionManager :=
  {| Reconnect.auto_reconnect := false; Reconnect.reconnect_attempts := 0;
     Reconnect.max_attempts := 5; Reconnect.base_delay := 3;
     Reconnect.is_reconnecting := false |}.

(** A limiter of two requests per minute that has admitted two. *)
Definition exhausted : RateLimit.RateLimiter :=
  snd (RateLimit.run_calls "u1" [1000%Q; 1000%Q] (RateLimit.init 2 100 1000)).

(** The five messages of [crowded] under a limit of three messages. *)
Definition over_count : ConversationMemory :=
  {| max_tokens := 2000; max_messages := 3; summarize_threshold := 15;
     important_keywords := default_keywords;
     messages := [msg_a; msg_b; msg_c; msg_d; msg_e];
     summary := None; total_tokens := 25; next_ident := 5 |}.

(** Six calls a second apart. *)
Definition six_calls : list Call :=
  [mkCall "user" "one" "2024-05-01T10:00:00.000001" "2024-05-01T10:00:00.000002";
   mkCall "assistant" "two" "2024-05-01T10:00:01.000001" "2024-05-01T10:00:01.000002";
   mkCall "user" "three" "2024-05-01T10:00:02.000001" "2024-05-01T10:00:02.000002";
   mkCall "assistant" "four" "2024-05-01T10:00:03.000001" "2024-05-01T10:00:03.000002";
   mkCall "user" "five" "2024-05-01T10:00:04.000001" "2024-05-01T10:00:04.000002";
   mkCall "assistant" "six" "2024-05-01T10:00:05.000001" "2024-05-01T10:00:05.000002"].

Definition always_fails : Reconnect.Action := fun _ => false.
Definition second_succeeds : Reconnect.Action := fun i => 2 <=? i.

End Scenarios.

(** * Properties *)

(** ** ConversationMemory *)

Module MemoryFacts.

Import Memory.

Lemma slice_from_length {A} (k : Z) (l : list A) :
  1 <= k -> Py.len (Py.slice_from (- k) l) <= k.
Proof.
  intros Hk. unfold Py.len, Py.slice_from, Py.slice_bound.
  rewrite length_drop.
  destruct (Z.ltb_spec (- k) 0); lia.
Qed.

Lemma slice_from_zero {A} (l : list A) : Py.slice_from (- 0) l = l.
Proof.
  unfold Py.slice_from, Py.slice_bound.
  destruct (Z.ltb_spec (- 0) 0); [lia|].
  by replace (Z.to_nat _) with 0%nat by lia.
Qed.

Lemma elem_of_slice_from {A} (i : Z) (l : list A) (x : A) :
  x ∈ Py.slice_from i l -> x ∈ l.
Proof.
  unfold Py.slice_from. intros Hx.
  rewrite <- (take_drop (Py.slice_bound (length l) i) l).
  apply elem_of_app. by right.
Qed.

Lemma elem_of_dedup seen msgs x : x ∈ dedup seen msgs -> x ∈ msgs.
Proof.
  revert seen. induction msgs as [|msg rest IH]; intros seen; simpl.
  - done.
  - case_bool_decide.
    + intros Hx. right. by eapply IH.
    + intros [->|Hx]%elem_of_cons; [left|right; by eapply IH].
Qed.

Lemma elem_of_insert_by_timestamp x l y :
  y ∈ insert_by_timestamp x l <-> y = x \/ y ∈ l.
Proof.
  induction l as [|z r IH]; simpl.
  - rewrite list_elem_of_singleton, elem_of_nil. tauto.
  - destruct (String.ltb _ _); rewrite !elem_of_cons, ?IH; tauto.
Qed.

Lemma elem_of_sort_by_timestamp l y : y ∈ sort_by_timestamp l <-> y ∈ l.
Proof.
  induction l as [|x r IH]; simpl; [done|].
  rewrite elem_of_insert_by_timestamp, IH, elem_of_cons. tauto.
Qed.

Lemma length_insert_by_timestamp x l :
  length (insert_by_timestamp x l) = S (length l).
Proof.
  induction l as [|z r IH]; simpl; [done|].
  destruct (String.ltb _ _); simpl; congruence.
Qed.

Lemma elem_of_trim_until_under limit l y :
  y ∈ trim_until_under limit l -> y ∈ l.
Proof.
  induction l as [|x r IH]; [done|].
  cbn [trim_until_under]. destruct (_ && _); [|done].
  intros Hy. right. by apply IH.
Qed.

(** Everything the union of [important] and [recent] holds is important
    or recent. *)
Lemma elem_of_combine from msgs y :
  y ∈ combine_important_recent from msgs ->
  important y = true \/ y ∈ Py.slice_from from msgs.
Proof.
  unfold combine_important_recent.
  rewrite elem_of_sort_by_timestamp. intros Hy%elem_of_dedup.
  apply elem_of_app in Hy as [Hy|Hy]; [left|by right].
  by apply list_elem_of_filter in Hy as [? _].
Qed.

Lemma compress_context_retained m y :
  y ∈ messages (compress_context m) ->
  important y = true \/ y ∈ Py.slice_from (-4) (messages m).
Proof.
  simpl. intros Hy%elem_of_trim_until_under. by apply elem_of_combine.
Qed.

(** *** The running total *)

Lemma summarize_total_ok now m : total_ok m -> total_ok (summarize_old_messages now m).
Proof.
  intros Hm. unfold summarize_old_messages.
  destruct (_ <=? _)%nat; [done|].
  destruct (Py.slice_to _ _); [done|]. reflexivity.
Qed.

Lemma compress_total_ok m : total_ok (compress_context m).
Proof. reflexivity. Qed.

Lemma trim_total_ok m : total_ok (trim_messages m).
Proof. reflexivity. Qed.

Lemma manage_memory_total_ok now m : total_ok m -> total_ok (manage_memory now m).
Proof.
  intros Hm. unfold manage_memory.
  set (m1 := if _ <? _ then _ else m).
  assert (total_ok m1) as H1.
  { subst m1. destruct (_ <? _); [by apply summarize_total_ok|done]. }
  clearbody m1.
  set (m2 := if _ <? _ then _ else m1).
  assert (total_ok m2) as H2.
  { subst m2. destruct (_ <? _); [apply compress_total_ok|done]. }
  clearbody m2.
  destruct (_ <? _); [apply trim_total_ok|done].
Qed.

Lemma calculate_total_tokens_app l1 l2 :
  calculate_total_tokens (l1 ++ l2)
  = calculate_total_tokens l1 + calculate_total_tokens l2.
Proof.
  unfold calculate_total_tokens. rewrite fmap_app.
  induction (tokens <$> l1) as [|x r IH]; simpl; lia.
Qed.

Lemma add_message_total_ok r c now now' m :
  total_ok m -> total_ok (add_message r c now now' m).
Proof.
  intros Hm. apply manage_memory_total_ok.
  unfold total_ok in *. simpl. rewrite calculate_total_tokens_app, Hm.
  unfold calculate_total_tokens. simpl. lia.
Qed.

Lemma run_total_ok calls m : total_ok m -> total_ok (run calls m).
Proof.
  revert m. induction calls as [|c calls IH]; intros m Hm; [done|].
  apply IH. by apply add_message_total_ok.
Qed.

(** *** The number of retained messages *)

Lemma summarize_max_messages now m :
  max_messages (summarize_old_messages now m) = max_messages m.
Proof.
  unfold summarize_old_messages.
  destruct (_ <=? _)%nat; [done|]. by destruct (Py.slice_to _ _).
Qed.

Lemma manage_memory_max_messages now m :
  max_messages (manage_memory now m) = max_messages m.
Proof.
  unfold manage_memory.
  repeat (destruct (_ <? _); simpl); rewrite ?summarize_max_messages; try done.
Qed.

Lemma add_message_max_messages r c now now' m :
  max_messages (add_message r c now now' m) = max_messages m.
Proof. unfold add_message. by rewrite manage_memory_max_messages. Qed.

Lemma run_max_messages calls m : max_messages (run calls m) = max_messages m.
Proof.
  revert m. induction calls as [|c calls IH]; intros m; [done|].
  simpl. fold (run calls). unfold run in *. simpl.
  by rewrite IH, add_message_max_messages.
Qed.

Lemma manage_memory_length now m :
  1 <= max_messages m ->
  Py.len (messages (manage_memory now m)) <= max_messages (manage_memory now m).
Proof.
  intros Hk. unfold manage_memory.
  set (m1 := if _ <? _ then _ else m).
  assert (max_messages m1 = max_messages m) as H1.
  { subst m1. destruct (_ <? _); [apply summarize_max_messages|done]. }
  clearbody m1.
  set (m2 := if _ <? _ then _ else m1).
  assert (max_messages m2 = max_messages m) as H2.
  { subst m2. destruct (_ <? _); [done|done]. }
  clearbody m2.
  destruct (Z.ltb_spec (max_messages m2) (Py.len (messages m2))); [|lia].
  simpl. apply slice_from_length. lia.
Qed.

Lemma add_message_length r c now now' m :
  1 <= max_messages m ->
  Py.len (messages (add_message r c now now' m)) <= max_messages m.
Proof.
  intros Hk. rewrite <- (add_message_max_messages r c now now' m).
  unfold add_message. by apply manage_memory_length.
Qed.

Lemma run_snoc calls c m :
  run (calls ++ [c]) m
  = add_message (call_role c) (call_content c) (call_now c) (call_now' c)
                (run calls m).
Proof. unfold run. by rewrite foldl_app. Qed.

(** With a positive message limit both invariants of the data model hold
    after every call of every run. *)
Theorem run_invariant mt mm st kws calls :
  1 <= mm ->
  let m := run calls (init mt mm st kws) in
  total_tokens m = calculate_total_tokens (messages m)
  /\ Py.len (messages m) <= mm.
Proof.
  intros Hmm m. split.
  - by apply run_total_ok.
  - subst m. destruct calls as [|c calls _] using rev_ind.
    + unfold Py.len. simpl. lia.
    + rewrite run_snoc.
      etransitivity; [apply add_message_length|];
        rewrite run_max_messages; simpl; lia.
Qed.

(** C1, at a message limit of zero: the running total is still the sum
    of the retained token estimates, but [combined[-0:]] is the whole
    list, so the message just added is retained and the number of
    retained turns exceeds the limit. *)
Theorem add_message_exceeds_zero_limit :
  let m := add_message "user" "hi" "2024-05-01T10:00:00.000001"
                       "2024-05-01T10:00:00.000002" Scenarios.keep_nothing in
  total_tokens m = calculate_total_tokens (messages m)
  /\ max_messages m = 0
  /\ Py.len (messages m) = 1.
Proof. vm_compute. auto. Qed.

(** C2: the token-compression pass never removes an important turn while
    a turn that is neither important nor among the most recent four
    remains in what it retains. *)
Theorem compress_context_importance m msg :
  msg ∈ messages m ->
  important msg = true ->
  msg ∉ messages (compress_context m) ->
  ~ exists other,
      other ∈ messages (compress_context m)
      /\ important other = false
      /\ other ∉ Py.slice_from (-4) (messages m).
Proof.
  intros _ _ _ (other & Hkept & Hplain & Hold).
  destruct (compress_context_retained m other Hkept); [congruence|done].
Qed.

Lemma compress_context_importance_witness :
  (Scenarios.msg_a ∈ messages Scenarios.crowded)
  /\ important Scenarios.msg_a = true
  /\ (Scenarios.msg_a ∉ messages (compress_context Scenarios.crowded))
  /\ ~ exists other,
        other ∈ messages (compress_context Scenarios.crowded)
        /\ important other = false
        /\ other ∉ Py.slice_from (-4) (messages Scenarios.crowded).
Proof.
  assert (Scenarios.msg_a ∈ messages Scenarios.crowded) as Ha
    by (apply (bool_decide_unpack _); vm_compute; exact I).
  assert (Scenarios.msg_a ∉ messages (compress_context Scenarios.crowded)) as Hr
    by (apply (bool_decide_unpack _); vm_compute; exact I).
  repeat split; try assumption; try reflexivity.
  exact (compress_context_importance Scenarios.crowded Scenarios.msg_a
           Ha eq_refl Hr).
Defined.

(** *** The context handed to the language model *)

Lemma calculate_total_tokens_cons x l :
  calculate_total_tokens (x :: l) = tokens x + calculate_total_tokens l.
Proof. reflexivity. Qed.

Lemma select_recent_spec limit reversed count selected :
  exists taken rest,
    reversed = taken ++ rest
    /\ select_recent limit reversed count selected = rev taken ++ selected
    /\ (count <= limit -> count + calculate_total_tokens taken <= limit)
    /\ (forall x rest', rest = x :: rest' ->
          limit < count + calculate_total_tokens taken + tokens x).
Proof.
  revert count selected.
  induction reversed as [|msg rest IH]; intros count selected.
  - exists [], []. repeat split; try done.
    unfold calculate_total_tokens. simpl. lia.
  - simpl. destruct (Z.leb_spec (count + tokens msg) limit) as [Hle|Hgt].
    + destruct (IH (count + tokens msg) (msg :: selected))
        as (taken & rest0 & -> & Hsel & Hsum & Hmax).
      exists (msg :: taken), rest0. repeat split.
      * rewrite Hsel. simpl. by rewrite <- app_assoc.
      * intros _. specialize (Hsum Hle).
        rewrite calculate_total_tokens_cons. lia.
      * intros x rest' ->. specialize (Hmax x rest' eq_refl).
        rewrite calculate_total_tokens_cons. lia.
    + exists [], (msg :: rest). repeat split; try done.
      * unfold calculate_total_tokens. simpl. lia.
      * intros x rest' [= <- <-]. unfold calculate_total_tokens. simpl. lia.
Qed.

Lemma calculate_total_tokens_rev l :
  calculate_total_tokens (rev l) = calculate_total_tokens l.
Proof.
  induction l as [|x r IH]; [done|]. simpl rev.
  rewrite calculate_total_tokens_app, IH, !calculate_total_tokens_cons.
  change (calculate_total_tokens []) with 0. lia.
Qed.

(** For a limit other than zero, [get_context] returns a suffix of the
    retained turns, in their order, reduced to role and content, whose
    token estimates sum to at most the limit, and which the next older
    turn would take over the limit. *)
Theorem get_context_greedy_suffix m limit :
  limit <> 0 -> 0 <= limit ->
  exists older kept,
    messages m = older ++ kept
    /\ get_context (Some limit) m = entry_of <$> kept
    /\ calculate_total_tokens kept <= limit
    /\ (forall older' x, older = older' ++ [x] ->
          limit < tokens x + calculate_total_tokens kept).
Proof.
  intros Hnz Hpos. unfold get_context.
  destruct (Z.eqb_spec limit 0) as [|_]; [done|].
  destruct (select_recent_spec limit (rev (messages m)) 0 [])
    as (taken & rest & Hrev & Hsel & Hsum & Hmax).
  exists (rev rest), (rev taken). repeat split.
  - by rewrite <- rev_app_distr, <- Hrev, rev_involutive.
  - by rewrite Hsel, app_nil_r.
  - rewrite calculate_total_tokens_rev. specialize (Hsum Hpos). lia.
  - intros older' x Hold. rewrite calculate_total_tokens_rev.
    assert (rest = x :: rev older') as Hrest.
    { rewrite <- (rev_involutive rest), Hold, rev_app_distr. done. }
    specialize (Hmax _ _ Hrest). lia.
Qed.

(** *** Token estimates are never negative *)

Lemma estimate_tokens_nonneg text : 0 <= estimate_tokens text.
Proof. unfold estimate_tokens. apply Z.div_pos; lia. Qed.

Lemma calculate_total_tokens_nonneg l :
  Forall (fun msg => 0 <= tokens msg) l -> 0 <= calculate_total_tokens l.
Proof.
  induction 1 as [|x l Hx _ IH]; [done|].
  rewrite calculate_total_tokens_cons. lia.
Qed.

Lemma Forall_slice_from {A} (P : A -> Prop) i l :
  Forall P l -> Forall P (Py.slice_from i l).
Proof. intros H. unfold Py.slice_from. by apply Forall_drop. Qed.

Lemma Forall_combine (P : Message -> Prop) from l :
  Forall P l -> Forall P (combine_important_recent from l).
Proof.
  rewrite !Forall_forall. intros H y Hy.
  apply elem_of_combine in Hy as Hy'. unfold combine_important_recent in Hy.
  apply elem_of_sort_by_timestamp, elem_of_dedup, elem_of_app in Hy.
  destruct Hy as [Hy|Hy]; apply H.
  - by apply list_elem_of_filter in Hy as [_ ?].
  - by eapply elem_of_slice_from.
Qed.

Lemma summarize_tokens_ok now m :
  tokens_ok m -> tokens_ok (summarize_old_messages now m).
Proof.
  intros Hm. unfold summarize_old_messages.
  destruct (_ <=? _)%nat; [done|]. destruct (Py.slice_to _ _); [done|].
  apply Forall_cons. split; [apply estimate_tokens_nonneg|].
  by apply Forall_slice_from.
Qed.

Lemma compress_tokens_ok m : tokens_ok m -> tokens_ok (compress_context m).
Proof.
  intros Hm. unfold tokens_ok. simpl. apply Forall_forall.
  intros y Hy%elem_of_trim_until_under. revert y Hy. apply Forall_forall.
  by apply Forall_combine.
Qed.

Lemma trim_tokens_ok m : tokens_ok m -> tokens_ok (trim_messages m).
Proof.
  intros Hm. unfold tokens_ok. simpl.
  by apply Forall_slice_from, Forall_combine.
Qed.

Lemma manage_memory_tokens_ok now m :
  tokens_ok m -> tokens_ok (manage_memory now m).
Proof.
  intros Hm. unfold manage_memory.
  set (m1 := if _ <? _ then _ else m).
  assert (tokens_ok m1) as H1.
  { subst m1. destruct (_ <? _); [by apply summarize_tokens_ok|done]. }
  clearbody m1.
  set (m2 := if _ <? _ then _ else m1).
  assert (tokens_ok m2) as H2.
  { subst m2. destruct (_ <? _); [by apply compress_tokens_ok|done]. }
  clearbody m2.
  destruct (_ <? _); [by apply trim_tokens_ok|done].
Qed.

Lemma add_message_tokens_ok r c now now' m :
  tokens_ok m -> tokens_ok (add_message r c now now' m).
Proof.
  intros Hm. apply manage_memory_tokens_ok. unfold tokens_ok. simpl.
  apply Forall_app. split; [done|].
  apply Forall_singleton. apply estimate_tokens_nonneg.
Qed.

Lemma run_tokens_ok calls m : tokens_ok m -> tokens_ok (run calls m).
Proof.
  revert m. induction calls as [|c calls IH]; intros m Hm; [done|].
  apply IH. by apply add_message_tokens_ok.
Qed.

(** Where no token estimate is negative the suffix of
    [get_context_greedy_suffix] is the longest one within the limit. *)
Theorem get_context_longest_suffix m limit older kept :
  tokens_ok m ->
  messages m = older ++ kept ->
  (forall older' x, older = older' ++ [x] ->
                    limit < tokens x + calculate_total_tokens kept) ->
  forall before suffix,
    messages m = before ++ suffix ->
    calculate_total_tokens suffix <= limit ->
    (length suffix <= length kept)%nat.
Proof.
  intros Hok Hsplit Hnext before suffix Hsplit' Hfit.
  rewrite Hsplit in Hsplit'.
  apply app_eq_inv in Hsplit' as [(k & -> & ->)|(k & -> & ->)].
  - destruct k as [|y k _] using rev_ind; [by rewrite app_nil_l|].
    exfalso.
    specialize (Hnext (before ++ k) y). rewrite <- app_assoc in Hnext.
    specialize (Hnext eq_refl).
    rewrite !calculate_total_tokens_app in Hfit.
    assert (0 <= calculate_total_tokens k).
    { apply calculate_total_tokens_nonneg.
      unfold tokens_ok in Hok. rewrite Hsplit in Hok.
      rewrite !Forall_app in Hok. tauto. }
    change (calculate_total_tokens [y]) with (tokens y + 0) in Hfit. lia.
  - rewrite length_app. lia.
Qed.

(** C6, at a limit of zero: [max_tokens or self.max_tokens] replaces the
    limit by the configured ceiling, so the result is that of a call
    without limit and holds a turn whose token estimate exceeds zero. *)
Theorem get_context_zero_limit :
  (forall m, get_context (Some 0) m = get_context None m)
  /\ get_context (Some 0) Scenarios.one_turn
     = [{| entry_role := "user"; entry_content := "abcd" |}]
  /\ (tokens <$> messages Scenarios.one_turn) = [1].
Proof. split; [intros m; reflexivity|]. vm_compute. auto. Qed.

End MemoryFacts.

(** ** ContextAnalyzer *)

Module ContextFacts.

Import Memory Context.

Lemma any_in_elem phrases text p :
  p ∈ phrases -> Py.contains p text = true -> any_in phrases text = true.
Proof.
  intros Hp Hc. apply existsb_exists. exists p. split; [|done].
  by apply list_elem_of_In.
Qed.

Lemma reference_words_pad tok :
  tok ∈ spec_pronouns -> pad tok ∈ reference_words.
Proof.
  unfold spec_pronouns. intros H.
  rewrite !elem_of_cons, elem_of_nil in H.
  repeat (destruct H as [->|H];
          [apply (bool_decide_unpack _); vm_compute; exact I|]).
  done.
Qed.

(** The topic comparison does not decide anything: a question that holds
    a context keyword references the previous conversation whatever the
    history is. *)
Lemma references_previous_keyword question history :
  any_in context_keywords question = true ->
  references_previous question history = true.
Proof.
  intros Hk. unfold references_previous. rewrite Hk.
  destruct (_ || _); [done|]. destruct (any_in strong_references _); [done|].
  cbn [negb]. by destruct (match extract_topics _ with [] => _ | _ => _ end).
Qed.

(** The part of the claim the code keeps for all nine tokens: a question
    in which one of them stands between two spaces, the ends of the
    stripped question counting as spaces, needs context whenever the
    history is not empty; so does "How do I fix it?"; with an empty
    history no question does. *)
Lemma needs_context_reference_word :
  (forall question history tok,
      history <> [] ->
      tok ∈ spec_pronouns ->
      Py.contains (pad tok) (pad (Py.strip (Py.lower question))) = true ->
      needs_context question history = true)
  /\ (forall history,
        history <> [] -> needs_context "How do I fix it?" history = true)
  /\ (forall question, needs_context question [] = false).
Proof.
  split; [|split].
  - intros question [|e history] tok Hne Htok Hin; [done|].
    unfold needs_context.
    by rewrite (any_in_elem reference_words _ (pad tok))
      by auto using reference_words_pad.
  - intros [|e history] Hne; [done|]. reflexivity.
  - reflexivity.
Qed.

(** Six of the tokens are context keywords as well, and those are looked
    for anywhere in the question: a question that holds "it", "that",
    "this", "them", "those" or "these" (hence also "its"), next to
    punctuation or not, needs context after any history that is not
    empty.  Only "they" and "their" depend on the spaces around them. *)
Lemma needs_context_keyword_pronoun question entry history tok :
  tok ∈ ["it"; "that"; "this"; "them"; "those"; "these"]%string ->
  Py.contains tok (Py.strip (Py.lower question)) = true ->
  needs_context question (entry :: history) = true.
Proof.
  intros Htok Hin. unfold needs_context.
  destruct (any_in reference_words _); [done|].
  destruct (is_follow_up _); [done|].
  rewrite references_previous_keyword; [done|].
  apply (any_in_elem _ _ tok); [|done].
  rewrite !elem_of_cons, elem_of_nil in Htok.
  repeat (destruct Htok as [->|Htok];
          [apply (bool_decide_unpack _); vm_compute; exact I|]).
  done.
Qed.

(** C4: "they" is a whole word of the question "Did they?", and yet the
    question needs no context, whatever the history is: the reference
    words are looked for between two spaces, and here the pronoun is
    followed by a question mark.  The same question without the mark
    needs context after any history that is not empty, which is what the
    padding of the question with spaces is there for. *)
Theorem needs_context_misses_punctuated_pronoun :
  spec_has_whole_word_pronoun "Did they?" = true
  /\ any_in reference_words (pad (Py.strip (Py.lower "Did they?"))) = false
  /\ (forall history, needs_context "Did they?" history = false)
  /\ (forall entry history,
        needs_context "Did they" (entry :: history) = true).
Proof.
  split; [vm_compute; reflexivity|]. split; [vm_compute; reflexivity|]. split.
  - intros [|entry history]; reflexivity.
  - intros entry history. reflexivity.
Qed.

(** C5, on the question "give another example" after the greeting: no
    pronoun, no follow-up phrase and no topic in common with the history,
    and yet [_references_previous] answers true through its last line,
    [return has_reference], so that [needs_context] is true. *)
Theorem references_previous_without_overlap :
  let question := "give another example"%string in
  let history := Scenarios.greeting in
  spec_has_whole_word_pronoun question = false
  /\ any_in reference_words (pad (Py.strip (Py.lower question))) = false
  /\ is_follow_up (Py.strip (Py.lower question)) = false
  /\ topic_overlap (extract_topics (Py.slice_from (-4) history))
                  (extract_topics_from_text (Py.strip (Py.lower question)))
     = ∅
  /\ references_previous (Py.strip (Py.lower question)) history = true
  /\ needs_context question history = true.
Proof.
  cbv zeta. repeat split; try (vm_compute; reflexivity).
Qed.

End ContextFacts.

(** ** RateLimiter *)

Module RateLimitFacts.

Import RateLimit.

Lemma later_than_true cutoff ts : later_than cutoff ts = true <-> (cutoff < ts)%Q.
Proof.
  unfold later_than. rewrite negb_true_iff, <- not_true_iff_false, Qle_bool_iff.
  split; [apply Qnot_le_lt|apply Qlt_not_le].
Qed.

Lemma within_cons_in w now ts h :
  (now - w < ts)%Q -> within w now (ts :: h) = ts :: within w now h.
Proof.
  intros Hin%later_than_true. unfold within. simpl. by rewrite Hin.
Qed.

Lemma within_cons_out w now ts h :
  (ts <= now - w)%Q -> within w now (ts :: h) = within w now h.
Proof.
  intros Hout. unfold within. simpl.
  destruct (later_than (now - w) ts) eqn:E; [|done].
  apply later_than_true in E. lra.
Qed.

(** Pruning at a time [t] to the 24-hour horizon does not change what
    any window of at most 24 hours sees at [t] or later. *)
Lemma within_pruned w t t' h :
  (w <= 86400)%Q -> (t <= t')%Q ->
  within w t' (within 86400 t h) = within w t' h.
Proof.
  intros Hw Ht. induction h as [|ts h IH]; [done|].
  destruct (Qlt_le_dec (t' - w) ts) as [Hin|Hout].
  - rewrite (within_cons_in 86400 t) by lra.
    rewrite !within_cons_in by done. by rewrite IH.
  - rewrite (within_cons_out w t') by done.
    destruct (Qlt_le_dec (t - 86400) ts) as [Hin'|Hout'].
    + rewrite (within_cons_in 86400 t) by done.
      by rewrite within_cons_out.
    + by rewrite (within_cons_out 86400 t).
Qed.

Lemma history_of_set_history id h rl : history_of id (set_history id h rl) = h.
Proof. unfold history_of. simpl. by rewrite lookup_insert_eq. Qed.

Lemma history_of_set_history_ne id id' h rl :
  id <> id' -> history_of id' (set_history id h rl) = history_of id' rl.
Proof. intros Hne. unfold history_of. simpl. by rewrite lookup_insert_ne. Qed.

Lemma len_nonneg {A} (l : list A) : 0 <= Py.len l.
Proof. unfold Py.len. lia. Qed.

(** The three outcomes of [is_allowed] by the window counts. *)
Lemma is_allowed_admit id t rl :
  minute_count id t rl < requests_per_minute rl ->
  hour_count id t rl < requests_per_hour rl ->
  day_count id t rl < requests_per_day rl ->
  is_allowed id t rl
  = ((true, None),
     set_history id (within 86400 t (history_of id rl) ++ [t])
       (set_history id (within 86400 t (history_of id rl)) rl)).
Proof.
  unfold minute_count, hour_count, day_count, is_allowed. intros Hm Hh Hd.
  cbn [requests_per_minute requests_per_hour requests_per_day set_history].
  rewrite !within_pruned by lra.
  destruct (Z.leb_spec (requests_per_minute rl)
              (Py.len (within 60 t (history_of id rl)))); [lia|].
  destruct (Z.leb_spec (requests_per_hour rl)
              (Py.len (within 3600 t (history_of id rl)))); [lia|].
  destruct (Z.leb_spec (requests_per_day rl)
              (Py.len (within 86400 t (history_of id rl)))); [lia|].
  done.
Qed.

Lemma is_allowed_minute id t rl :
  requests_per_minute rl <= minute_count id t rl ->
  is_allowed id t rl
  = ((false, Some (exceeded_message (requests_per_minute rl) "minute")),
     set_history id (within 86400 t (history_of id rl)) rl).
Proof.
  unfold minute_count, is_allowed. intros Hm.
  cbn [requests_per_minute requests_per_hour requests_per_day set_history].
  rewrite !within_pruned by lra.
  destruct (Z.leb_spec (requests_per_minute rl)
              (Py.len (within 60 t (history_of id rl)))); [done|lia].
Qed.

Lemma is_allowed_rejects id t rl :
  fst (fst (is_allowed id t rl)) = false ->
  snd (is_allowed id t rl)
  = set_history id (within 86400 t (history_of id rl)) rl.
Proof.
  unfold is_allowed.
  cbn [requests_per_minute requests_per_hour requests_per_day set_history].
  repeat (destruct (_ <=? _); [done|]). done.
Qed.

Lemma is_allowed_iff id t rl :
  fst (fst (is_allowed id t rl)) = true
  <-> minute_count id t rl < requests_per_minute rl
      /\ hour_count id t rl < requests_per_hour rl
      /\ day_count id t rl < requests_per_day rl.
Proof.
  split.
  - unfold minute_count, hour_count, day_count, is_allowed.
    cbn [requests_per_minute requests_per_hour requests_per_day set_history].
    rewrite !within_pruned by lra.
    destruct (Z.leb_spec (requests_per_minute rl)
                (Py.len (within 60 t (history_of id rl)))); [done|].
    destruct (Z.leb_spec (requests_per_hour rl)
                (Py.len (within 3600 t (history_of id rl)))); [done|].
    destruct (Z.leb_spec (requests_per_day rl)
                (Py.len (within 86400 t (history_of id rl)))); [done|].
    done.
  - intros (Hm & Hh & Hd). by rewrite is_allowed_admit.
Qed.

Lemma set_history_limits id h rl :
  requests_per_minute (set_history id h rl) = requests_per_minute rl
  /\ requests_per_hour (set_history id h rl) = requests_per_hour rl
  /\ requests_per_day (set_history id h rl) = requests_per_day rl.
Proof. done. Qed.

Lemma within_length w now h : (length (within w now h) <= length h)%nat.
Proof. unfold within. apply List.filter_length_le. Qed.

(** What a window holds, by the condition that defines it: the stored
    timestamps strictly later than [now - window], in their order. *)
Lemma within_filter w now h :
  within w now h = filter (fun ts => (now - w < ts)%Q) h.
Proof.
  induction h as [|ts h IH]; [done|].
  rewrite filter_cons.
  destruct (decide (now - w < ts)%Q) as [Hin|Hout].
  - rewrite within_cons_in by done. by rewrite IH.
  - rewrite within_cons_out by (by apply Qnot_lt_le). done.
Qed.

Lemma window_count w now h :
  Py.len (within w now h)
  = Z.of_nat (length (filter (fun ts => (now - w < ts)%Q) h)).
Proof. by rewrite within_filter. Qed.

(** Two calls admitted within a second of each other by a limiter of two
    requests per minute that knew nothing of "u1": what is stored then. *)
Lemma burst_of_two rl t1 t2 :
  requests_per_minute rl = 2 ->
  2 <= requests_per_hour rl ->
  2 <= requests_per_day rl ->
  history_of "u1" rl = [] ->
  (t1 - t2 <= 1)%Q -> (t2 - t1 <= 1)%Q ->
  exists rl2,
    run_calls "u1" [t1; t2] rl = ([(true, None); (true, None)], rl2)
    /\ history_of "u1" rl2 = [t1; t2]
    /\ requests_per_minute rl2 = requests_per_minute rl
    /\ requests_per_hour rl2 = requests_per_hour rl
    /\ requests_per_day rl2 = requests_per_day rl.
Proof.
  intros Hm Hh Hd Hnew H12 H21. cbn [run_calls].
  rewrite (is_allowed_admit "u1" t1 rl);
    [|unfold minute_count, hour_count, day_count, Py.len;
      rewrite Hnew; simpl; lia..].
  set (rl1 := set_history "u1" (_ ++ [t1]) _).
  assert (history_of "u1" rl1 = [t1]) as H1.
  { subst rl1. by rewrite history_of_set_history, Hnew. }
  rewrite (is_allowed_admit "u1" t2 rl1);
    [|unfold minute_count, hour_count, day_count, Py.len;
      rewrite H1, within_cons_in by lra; simpl; lia..].
  eexists. split; [reflexivity|]. split; [|done].
  by rewrite history_of_set_history, H1, within_cons_in by lra.
Qed.

Lemma run_calls_app id ts1 ts2 rl :
  run_calls id (ts1 ++ ts2) rl
  = (fst (run_calls id ts1 rl)
       ++ fst (run_calls id ts2 (snd (run_calls id ts1 rl))),
     snd (run_calls id ts2 (snd (run_calls id ts1 rl)))).
Proof.
  revert rl. induction ts1 as [|t ts1 IH]; intros rl.
  - simpl. by destruct (run_calls id ts2 rl).
  - rewrite <- app_comm_cons. cbn [run_calls].
    destruct (is_allowed id t rl) as [r rl1]. rewrite IH.
    by destruct (run_calls id ts1 rl1).
Qed.

(** C3: with a minute ceiling of two (and hour and day ceilings that the
    requests made do not reach), three calls for "u1" at times within one
    second of each other, on a limiter that has no history for "u1", are
    answered true, true, false, and the third reason names the minute
    window; a fourth call, sixty seconds or more after the first two, is
    admitted again, the two having left the minute window.  In general a
    call at time [t] is admitted iff, for each of the three windows, the
    number of stored timestamps [ts] of the identifier with
    [t - window < ts] is below the ceiling of the window; the call that
    admits is the one that appends [t], behind the stored timestamps of
    the last twenty-four hours, and a call that rejects appends
    nothing. *)
Theorem is_allowed_burst_and_admission :
  (forall rl t1 t2 t3,
      requests_per_minute rl = 2 ->
      2 <= requests_per_hour rl ->
      2 <= requests_per_day rl ->
      history_of "u1" rl = [] ->
      (t1 - t2 <= 1)%Q -> (t2 - t1 <= 1)%Q ->
      (t1 - t3 <= 1)%Q -> (t3 - t1 <= 1)%Q ->
      (t2 - t3 <= 1)%Q -> (t3 - t2 <= 1)%Q ->
      fst (run_calls "u1" [t1; t2; t3] rl)
      = [(true, None); (true, None);
         (false, Some "Rate limit exceeded: 2 requests per minute"%string)])
  /\ (forall rl t1 t2 t3 t4,
        requests_per_minute rl = 2 ->
        3 <= requests_per_hour rl ->
        3 <= requests_per_day rl ->
        history_of "u1" rl = [] ->
        (t1 - t2 <= 1)%Q -> (t2 - t1 <= 1)%Q ->
        (t1 - t3 <= 1)%Q -> (t3 - t1 <= 1)%Q ->
        (t2 - t3 <= 1)%Q -> (t3 - t2 <= 1)%Q ->
        (t1 + 60 <= t4)%Q -> (t2 + 60 <= t4)%Q ->
        fst (run_calls "u1" [t1; t2; t3; t4] rl)
        = [(true, None); (true, None);
           (false, Some "Rate limit exceeded: 2 requests per minute"%string);
           (true, None)])
  /\ (forall rl id t,
        let stored (window : Q) :=
          Z.of_nat (length (filter (fun ts => (t - window < ts)%Q)
                                   (history_of id rl))) in
        fst (fst (is_allowed id t rl)) = true
        <-> stored 60%Q < requests_per_minute rl
            /\ stored 3600%Q < requests_per_hour rl
            /\ stored 86400%Q < requests_per_day rl)
  /\ (forall rl id t,
        fst (fst (is_allowed id t rl)) = true ->
        history_of id (snd (is_allowed id t rl))
        = filter (fun ts => (t - 86400 < ts)%Q) (history_of id rl) ++ [t])
  /\ (forall rl id t,
        fst (fst (is_allowed id t rl)) = false ->
        history_of id (snd (is_allowed id t rl))
        = filter (fun ts => (t - 86400 < ts)%Q) (history_of id rl)).
Proof.
  assert (forall rl t1 t2 t3,
             requests_per_minute rl = 2 ->
             2 <= requests_per_hour rl ->
             2 <= requests_per_day rl ->
             history_of "u1" rl = [] ->
             (t1 - t2 <= 1)%Q -> (t2 - t1 <= 1)%Q ->
             (t1 - t3 <= 1)%Q -> (t3 - t1 <= 1)%Q ->
             (t2 - t3 <= 1)%Q -> (t3 - t2 <= 1)%Q ->
             exists rl3,
               run_calls "u1" [t1; t2; t3] rl
               = ([(true, None); (true, None);
                   (false,
                    Some "Rate limit exceeded: 2 requests per minute"%string)],
                  rl3)
               /\ history_of "u1" rl3 = [t1; t2]
               /\ requests_per_minute rl3 = requests_per_minute rl
               /\ requests_per_hour rl3 = requests_per_hour rl
               /\ requests_per_day rl3 = requests_per_day rl) as Hthree.
  { intros rl t1 t2 t3 Hm Hh Hd Hnew H12 H21 H13 H31 H23 H32.
    destruct (burst_of_two rl t1 t2) as (rl2 & Hrun & H2 & Hm2 & Hh2 & Hd2);
      [done..|].
    change [t1; t2; t3] with ([t1; t2] ++ [t3]).
    rewrite run_calls_app, Hrun. cbn [fst snd run_calls].
    rewrite (is_allowed_minute "u1" t3 rl2).
    - cbn [fst snd app]. rewrite Hm2, Hm.
      eexists. split; [reflexivity|]. split.
      + by rewrite history_of_set_history, H2, !within_cons_in by lra.
      + cbn [set_history requests_per_minute requests_per_hour
             requests_per_day]. repeat split; congruence.
    - unfold minute_count, Py.len. rewrite H2, !within_cons_in by lra.
      simpl. lia. }
  split; [|split; [|split; [|split]]].
  - intros rl t1 t2 t3 Hm Hh Hd Hnew H12 H21 H13 H31 H23 H32.
    destruct (Hthree rl t1 t2 t3) as (rl3 & -> & _); done.
  - intros rl t1 t2 t3 t4 Hm Hh Hd Hnew H12 H21 H13 H31 H23 H32 H14 H24.
    destruct (Hthree rl t1 t2 t3) as (rl3 & Hrun & H3 & Hm3 & Hh3 & Hd3);
      [done|lia|lia|done..|].
    change [t1; t2; t3; t4] with ([t1; t2; t3] ++ [t4]).
    rewrite run_calls_app, Hrun. cbn [fst snd run_calls].
    rewrite (is_allowed_admit "u1" t4 rl3); [reflexivity|..].
    + unfold minute_count, Py.len.
      rewrite H3, !within_cons_out by lra. simpl. lia.
    + unfold hour_count, Py.len.
      pose proof (within_length 3600 t4 (history_of "u1" rl3)) as Hle.
      rewrite H3 in Hle at 2. simpl in Hle. lia.
    + unfold day_count, Py.len.
      pose proof (within_length 86400 t4 (history_of "u1" rl3)) as Hle.
      rewrite H3 in Hle at 2. simpl in Hle. lia.
  - intros rl id t stored. subst stored. cbv beta.
    rewrite <- !window_count. apply is_allowed_iff.
  - intros rl id t [Hm [Hh Hd]]%is_allowed_iff.
    rewrite is_allowed_admit by done. rewrite <- within_filter.
    apply history_of_set_history.
  - intros rl id t Hrej. rewrite is_allowed_rejects by done.
    rewrite <- within_filter. apply history_of_set_history.
Qed.

Lemma is_allowed_burst_witness :
  fst (run_calls "u1" [1000%Q; 1000%Q; 1001%Q] (init 2 100 1000))
  = [(true, None); (true, None);
     (false, Some "Rate limit exceeded: 2 requests per minute"%string)]
  /\ fst (run_calls "u1" [1000%Q; 1000%Q; 1001%Q; 1060%Q] (init 2 100 1000))
     = [(true, None); (true, None);
        (false, Some "Rate limit exceeded: 2 requests per minute"%string);
        (true, None)].
Proof.
  split.
  - apply (proj1 is_allowed_burst_and_admission);
      try reflexivity; try (simpl; lia); vm_compute; discriminate.
  - apply (proj1 (proj2 is_allowed_burst_and_admission));
      try reflexivity; try (simpl; lia); vm_compute; discriminate.
Defined.

(** C7: a call rejected by the minute window leaves the stored history
    changed by the 24-hour pruning only, so the hour and day counts seen
    at that time or later are what they were; and with a positive minute
    ceiling, as soon as no stored timestamp lies in the 60-second window
    and the hour and day ceilings are not reached, the next call of that
    identifier is admitted. *)
Theorem minute_rejection_keeps_hour_day rl id t :
  requests_per_minute rl <= minute_count id t rl ->
  fst (is_allowed id t rl)
  = (false, Some (exceeded_message (requests_per_minute rl) "minute"))
  /\ (forall t',
        (t <= t')%Q ->
        hour_count id t' (snd (is_allowed id t rl)) = hour_count id t' rl
        /\ day_count id t' (snd (is_allowed id t rl)) = day_count id t' rl)
  /\ (forall t',
        0 < requests_per_minute rl ->
        minute_count id t' (snd (is_allowed id t rl)) = 0 ->
        hour_count id t' (snd (is_allowed id t rl)) < requests_per_hour rl ->
        day_count id t' (snd (is_allowed id t rl)) < requests_per_day rl ->
        fst (is_allowed id t' (snd (is_allowed id t rl))) = (true, None)).
Proof.
  intros Hrej. rewrite is_allowed_minute by done. cbn [fst snd].
  split; [done|]. split.
  - intros t' Ht. unfold hour_count, day_count.
    rewrite history_of_set_history, !within_pruned by lra. done.
  - intros t' Hpos Hm Hh Hd. rewrite is_allowed_admit; [done|..].
    + rewrite Hm. apply Hpos.
    + apply Hh.
    + apply Hd.
Qed.

Lemma minute_rejection_witness :
  requests_per_minute Scenarios.exhausted <= minute_count "u1" 1001 Scenarios.exhausted
  /\ fst (is_allowed "u1" 1001 Scenarios.exhausted)
     = (false, Some "Rate limit exceeded: 2 requests per minute"%string)
  /\ fst (is_allowed "u1" 1061 (snd (is_allowed "u1" 1001 Scenarios.exhausted)))
     = (true, None).
Proof.
  assert (requests_per_minute Scenarios.exhausted
          <= minute_count "u1" 1001 Scenarios.exhausted) as Hrej
    by (vm_compute; discriminate).
  destruct (minute_rejection_keeps_hour_day Scenarios.exhausted "u1" 1001 Hrej)
    as (Hres & _ & Hnext).
  split; [exact Hrej|]. split; [exact Hres|].
  apply Hnext; vm_compute; reflexivity.
Defined.

End RateLimitFacts.

(** ** SessionManager *)

Module SessionFacts.

Import Sessions.

Lemma deactivate_idemp s : deactivate (deactivate s) = deactivate s.
Proof. reflexivity. Qed.

Lemma remove_all_cons sid sids mgr :
  remove_all (sid :: sids) mgr = remove_all sids (remove_session sid mgr).
Proof. reflexivity. Qed.

Lemma remove_all_sessions sids mgr sid :
  sessions (remove_all sids mgr) !! sid
  = if bool_decide (sid ∈ sids) then None else sessions mgr !! sid.
Proof.
  revert mgr. induction sids as [|sid0 sids IH]; intros mgr; [done|].
  rewrite remove_all_cons, IH.
  unfold remove_session.
  destruct (decide (sid = sid0)) as [->|Hne].
  - rewrite (bool_decide_eq_true_2 (sid0 ∈ sid0 :: sids)) by left.
    case_bool_decide; [done|].
    destruct (sessions mgr !! sid0) eqn:E; [|done].
    simpl. by rewrite lookup_delete_eq.
  - assert (bool_decide (sid ∈ sid0 :: sids) = bool_decide (sid ∈ sids)) as ->.
    { apply bool_decide_ext. rewrite elem_of_cons. tauto. }
    case_bool_decide; [done|].
    destruct (sessions mgr !! sid0) eqn:E; [|done].
    simpl. by rewrite lookup_delete_ne.
Qed.

Lemma refers_cons_removed sid0 sids mgr r0 r :
  sessions mgr !! sid0 = Some r0 -> r0 <> r ->
  refers sids (remove_session sid0 mgr) r <-> refers (sid0 :: sids) mgr r.
Proof.
  intros E Hr. unfold refers, remove_session. rewrite E. cbn [sessions].
  rewrite Exists_cons, !Exists_exists. split.
  - intros (sid & Hin & Hl). right. exists sid. split; [done|].
    apply lookup_delete_Some in Hl. tauto.
  - intros [Hl|(sid & Hin & Hl)]; [congruence|].
    exists sid. split; [done|]. apply lookup_delete_Some. split; [|done].
    intros <-. congruence.
Qed.

Lemma refers_cons_absent sid0 sids mgr r :
  sessions mgr !! sid0 = None ->
  refers sids (remove_session sid0 mgr) r <-> refers (sid0 :: sids) mgr r.
Proof.
  intros E. unfold refers, remove_session. rewrite E, Exists_cons.
  split; [by right|]. intros [Hl|H]; [congruence|done].
Qed.

Lemma remove_session_objects_hit sid mgr r :
  sessions mgr !! sid = Some r ->
  objects (remove_session sid mgr) !! r = deactivate <$> objects mgr !! r.
Proof.
  intros E. unfold remove_session. rewrite E. cbn [objects].
  by rewrite lookup_alter_eq.
Qed.

Lemma remove_session_objects_miss sid mgr r :
  sessions mgr !! sid <> Some r ->
  objects (remove_session sid mgr) !! r = objects mgr !! r.
Proof.
  intros E. unfold remove_session.
  destruct (sessions mgr !! sid) as [r0|]; [|done]. cbn [objects].
  rewrite lookup_alter_ne; [done|congruence].
Qed.

Lemma remove_all_objects sids mgr r :
  objects (remove_all sids mgr) !! r
  = if decide (refers sids mgr r)
    then deactivate <$> objects mgr !! r else objects mgr !! r.
Proof.
  revert mgr. induction sids as [|sid0 sids IH]; intros mgr.
  - destruct (decide _) as [H|H]; [|done]. by apply Exists_nil in H.
  - rewrite remove_all_cons, IH.
    destruct (decide (sessions mgr !! sid0 = Some r)) as [E|E].
    + rewrite (decide_True (P := refers (sid0 :: sids) mgr r))
        by (by apply Exists_cons_hd).
      rewrite remove_session_objects_hit by done.
      destruct (decide _); by destruct (objects mgr !! r).
    + rewrite remove_session_objects_miss by done.
      apply decide_ext.
      destruct (sessions mgr !! sid0) as [r0|] eqn:E0.
      * eapply refers_cons_removed; [done|congruence].
      * by apply refers_cons_absent.
Qed.

Lemma elem_of_inactive_ids now mgr sid :
  sid ∈ inactive_ids now mgr
  <-> exists r, sessions mgr !! sid = Some r
                /\ idle_before (cutoff_time now mgr) mgr r = true.
Proof.
  unfold inactive_ids. rewrite list_elem_of_fmap. split.
  - intros ([sid' r] & -> & Hin). apply list_elem_of_In, filter_In in Hin.
    destruct Hin as [Hin Hidle]. exists r. split; [|done].
    by apply elem_of_map_to_list, list_elem_of_In.
  - intros (r & Hl & Hidle). exists (sid, r). split; [done|].
    apply list_elem_of_In, filter_In. split; [|done].
    by apply list_elem_of_In, elem_of_map_to_list.
Qed.

(** C8: the sweep unregisters exactly the sessions whose last activity
    is before [now] minus the timeout, and the object of each of them is
    marked inactive: its [is_active] is [False] afterwards and its other
    fields are what they were; a session that is not idle stays
    registered with its record as it was; nothing gets registered. *)
Theorem cleanup_inactive_sessions_exact now mgr :
  let cutoff := now - minutes (session_timeout_minutes mgr) in
  let mgr' := cleanup_inactive_sessions now mgr in
  (forall sid r s,
      sessions mgr !! sid = Some r -> objects mgr !! r = Some s ->
      last_activity s < cutoff ->
      sessions mgr' !! sid = None
      /\ exists s',
           objects mgr' !! r = Some s'
           /\ is_active s' = false
           /\ session_id s' = session_id s /\ user_id s' = user_id s
           /\ created_at s' = created_at s
           /\ last_activity s' = last_activity s
           /\ conversation_count s' = conversation_count s)
  /\ (forall sid r s,
        sessions mgr !! sid = Some r -> objects mgr !! r = Some s ->
        cutoff <= last_activity s ->
        sessions mgr' !! sid = Some r
        /\ objects mgr' !! r = Some s)
  /\ (forall sid, sessions mgr !! sid = None -> sessions mgr' !! sid = None).
Proof.
  intros cutoff mgr'. subst mgr'. unfold cleanup_inactive_sessions.
  split; [|split].
  - intros sid r s Hsid Hr Hidle.
    assert (idle_before (cutoff_time now mgr) mgr r = true) as Hb.
    { unfold idle_before. rewrite Hr. by apply Z.ltb_lt. }
    assert (sid ∈ inactive_ids now mgr) as Hin
      by (apply elem_of_inactive_ids; eauto).
    split.
    + rewrite remove_all_sessions. by rewrite bool_decide_eq_true_2.
    + exists (deactivate s). split; [|done].
      rewrite remove_all_objects, decide_True, Hr; [done|].
      apply Exists_exists. eauto.
  - intros sid r s Hsid Hr Hact.
    assert (idle_before (cutoff_time now mgr) mgr r = false) as Hb.
    { unfold idle_before. rewrite Hr. apply Z.ltb_ge. by unfold cutoff_time. }
    split.
    + rewrite remove_all_sessions, bool_decide_eq_false_2; [done|].
      intros (r' & Hl & Hidle)%elem_of_inactive_ids. congruence.
    + rewrite remove_all_objects, decide_False; [done|].
      intros (sid' & (r' & Hl & Hidle)%elem_of_inactive_ids & Hl')%Exists_exists.
      congruence.
  - intros sid Hsid. rewrite remove_all_sessions, Hsid.
    by destruct (bool_decide _).
Qed.

Lemma cleanup_inactive_sessions_witness :
  let mgr' := cleanup_inactive_sessions (minutes 31) Scenarios.two_sessions in
  (sessions mgr' !! "a"%string = None
   /\ exists s',
        objects mgr' !! 0%nat = Some s'
        /\ is_active s' = false
        /\ session_id s' = "a"%string /\ user_id s' = "user_01234567"%string
        /\ created_at s' = 0 /\ last_activity s' = 0
        /\ conversation_count s' = 0)
  /\ (sessions mgr' !! "b"%string = Some 1%nat
      /\ objects mgr' !! 1%nat = Some Scenarios.session_b).
Proof.
  destruct (cleanup_inactive_sessions_exact (minutes 31) Scenarios.two_sessions)
    as (Hidle & Hkept & _).
  split.
  - apply (Hidle "a"%string 0%nat Scenarios.session_a);
      vm_compute; reflexivity.
  - apply (Hkept "b"%string 1%nat Scenarios.session_b);
      vm_compute; try reflexivity; discriminate.
Defined.

End SessionFacts.

(** ** ReconnectionManager *)

Module ReconnectFacts.

Import Reconnect.

Lemma invocations_backoff_from base attempt n :
  invocations (backoff_from base attempt n) = n.
Proof.
  revert attempt. induction n as [|n IH]; intros attempt; [done|].
  unfold invocations in *. simpl. by rewrite IH.
Qed.

Lemma delays_backoff_from base attempt n :
  delays (backoff_from base attempt n)
  = (fun i => base * 2 ^ (attempt + Z.of_nat i - 1)) <$> seq 0 n.
Proof.
  revert attempt. induction n as [|n IH]; intros attempt; [done|].
  cbn [backoff_from delays flat_map app seq fmap list_fmap].
  f_equal; [f_equal; f_equal; lia|].
  fold (delays (backoff_from base (attempt + 1) n)). rewrite IH.
  rewrite <- seq_shift, <- list_fmap_compose.
  apply list_fmap_ext. intros _ i _. simpl. f_equal. f_equal. lia.
Qed.

(** The loop runs the attempts in order, each after its own sleep, and
    stops at the first that returns or after the last. *)
Lemma attempt_loop_events remaining attempt max base f :
  exists n,
    (n <= remaining)%nat
    /\ snd (attempt_loop remaining attempt max base f)
       = backoff_from base attempt n
    /\ (fst (attempt_loop remaining attempt max base f) = true ->
        (0 < n)%nat /\ f (attempt + Z.of_nat n - 1) = true)
    /\ (forall i, (i < n - 1)%nat -> f (attempt + Z.of_nat i) = false).
Proof.
  revert attempt. induction remaining as [|remaining IH]; intros attempt.
  - exists 0%nat. split; [lia|]. split; [done|]. split; [done|].
    intros i Hi. lia.
  - cbn [attempt_loop]. destruct (f attempt) eqn:Hf.
    + exists 1%nat. split; [lia|]. split; [done|]. split.
      * intros _. split; [lia|].
        by replace (attempt + Z.of_nat 1 - 1) with attempt by lia.
      * intros i Hi. lia.
    + destruct (attempt =? max).
      * exists 1%nat. split; [lia|]. split; [done|]. split; [done|].
        intros i Hi. lia.
      * destruct (IH (attempt + 1)) as (n & Hn & Hev & Hok & Hfail).
        destruct (attempt_loop remaining (attempt + 1) max base f)
          as [ok events].
        exists (S n). cbn [fst snd] in *.
        split; [lia|]. split; [by rewrite Hev|]. split.
        -- intros H. destruct (Hok H) as [Hpos Hf']. split; [lia|].
           by replace (attempt + Z.of_nat (S n) - 1)
             with (attempt + 1 + Z.of_nat n - 1) by lia.
        -- intros [|i] Hi.
           ++ by replace (attempt + Z.of_nat 0) with attempt by lia.
           ++ replace (attempt + Z.of_nat (S i))
                with (attempt + 1 + Z.of_nat i) by lia.
              apply Hfail. lia.
Qed.

Lemma attempt_reconnect_enabled f mgr :
  auto_reconnect mgr = true -> is_reconnecting mgr = false ->
  attempt_reconnect f mgr
  = let r := attempt_loop (Z.to_nat (max_attempts mgr)) 1 (max_attempts mgr)
                          (base_delay mgr) f in
    (fst r, snd r, finish (fst r) mgr).
Proof.
  intros Ha Hr. unfold attempt_reconnect. rewrite Ha, Hr. cbn [negb].
  by destruct (attempt_loop _ _ _ _ _).
Qed.

(** C9: with three attempts and a base delay of one, an action that
    always fails is invoked three times and the result is failure; an
    action that fails once and then succeeds is invoked twice, the result
    is success and the attempt counter is zero afterwards; and in every
    run attempt [i] comes right after a sleep of [base_delay * 2^(i-1)],
    the attempts being numbered from one without a gap. *)
Theorem attempt_reconnect_backoff :
  (forall mgr f,
      auto_reconnect mgr = true -> is_reconnecting mgr = false ->
      max_attempts mgr = 3 -> base_delay mgr = 1 ->
      (forall i, f i = false) ->
      fst (fst (attempt_reconnect f mgr)) = false
      /\ invocations (snd (fst (attempt_reconnect f mgr))) = 3%nat
      /\ snd (fst (attempt_reconnect f mgr))
         = [Sleep 1; Invoke 1; Sleep 2; Invoke 2; Sleep 4; Invoke 3])
  /\ (forall mgr f,
        auto_reconnect mgr = true -> is_reconnecting mgr = false ->
        max_attempts mgr = 3 -> base_delay mgr = 1 ->
        f 1 = false -> f 2 = true ->
        fst (fst (attempt_reconnect f mgr)) = true
        /\ invocations (snd (fst (attempt_reconnect f mgr))) = 2%nat
        /\ snd (fst (attempt_reconnect f mgr))
           = [Sleep 1; Invoke 1; Sleep 2; Invoke 2]
        /\ reconnect_attempts (snd (attempt_reconnect f mgr)) = 0)
  /\ (forall mgr f,
        auto_reconnect mgr = true -> is_reconnecting mgr = false ->
        exists n,
          (n <= Z.to_nat (max_attempts mgr))%nat
          /\ snd (fst (attempt_reconnect f mgr))
             = backoff_events (base_delay mgr) n
          /\ invocations (snd (fst (attempt_reconnect f mgr))) = n).
Proof.
  split; [|split].
  - intros mgr f Ha Hr Hmax Hbase Hf.
    rewrite attempt_reconnect_enabled by done. rewrite Hmax, Hbase.
    change (Z.to_nat 3) with 3%nat. cbn [attempt_loop].
    rewrite !Hf. done.
  - intros mgr f Ha Hr Hmax Hbase Hf1 Hf2.
    rewrite attempt_reconnect_enabled by done. rewrite Hmax, Hbase.
    change (Z.to_nat 3) with 3%nat. cbn [attempt_loop].
    change (1 + 1) with 2. rewrite Hf1, Hf2. done.
  - intros mgr f Ha Hr.
    rewrite attempt_reconnect_enabled by done. cbn [fst snd].
    destruct (attempt_loop_events (Z.to_nat (max_attempts mgr)) 1
                (max_attempts mgr) (base_delay mgr) f)
      as (n & Hn & Hev & _).
    exists n. rewrite Hev. split; [done|]. split; [done|].
    apply invocations_backoff_from.
Qed.

Lemma attempt_reconnect_backoff_witness :
  (fst (fst (attempt_reconnect Scenarios.always_fails Scenarios.three_tries))
   = false
   /\ invocations
       (snd (fst (attempt_reconnect Scenarios.always_fails
                                    Scenarios.three_tries))) = 3%nat)
  /\ (fst (fst (attempt_reconnect Scenarios.second_succeeds
                                 Scenarios.three_tries)) = true
      /\ invocations
          (snd (fst (attempt_reconnect Scenarios.second_succeeds
                                       Scenarios.three_tries))) = 2%nat).
Proof.
  destruct attempt_reconnect_backoff as (Hfail & Hsecond & _). split.
  - destruct (Hfail Scenarios.three_tries Scenarios.always_fails)
      as (H1 & H2 & _); try reflexivity. by split.
  - destruct (Hsecond Scenarios.three_tries Scenarios.second_succeeds)
      as (H1 & H2 & _); try reflexivity. by split.
Defined.

(** C10: with the preference [connection.auto_reconnect] off,
    [attempt_reconnect] answers failure at once: no invocation of the
    action, no sleep, and the manager as it was, whatever the number of
    attempts allowed. *)
Theorem attempt_reconnect_disabled f mgr :
  auto_reconnect mgr = false ->
  attempt_reconnect f mgr = (false, [], mgr)
  /\ invocations (snd (fst (attempt_reconnect f mgr))) = 0%nat
  /\ delays (snd (fst (attempt_reconnect f mgr))) = [].
Proof.
  intros Ha. unfold attempt_reconnect. by rewrite Ha.
Qed.

Lemma attempt_reconnect_disabled_witness :
  auto_reconnect Scenarios.no_auto = false
  /\ attempt_reconnect (fun _ => true) Scenarios.no_auto
     = (false, [], Scenarios.no_auto).
Proof.
  split; [reflexivity|].
  exact (proj1 (attempt_reconnect_disabled (fun _ => true) Scenarios.no_auto
                  eq_refl)).
Defined.

End ReconnectFacts.

(** * Further properties *)

(** ** ConversationMemory: order of the retained messages *)

Module MemoryOrder.

Import Memory MemoryFacts.

(** *** The order of timestamps *)

Lemma ascii_compare_refl c : Ascii.compare c c = Eq.
Proof. unfold Ascii.compare. apply N.compare_refl. Qed.

Lemma string_compare_refl s : String.compare s s = Eq.
Proof.
  induction s as [|c s IH]; [done|]. simpl. by rewrite ascii_compare_refl.
Qed.

Lemma string_compare_trans s1 s2 s3 :
  String.compare s1 s2 = Lt -> String.compare s2 s3 = Lt ->
  String.compare s1 s3 = Lt.
Proof.
  revert s2 s3. induction s1 as [|c1 s1 IH]; intros [|c2 s2] [|c3 s3];
    simpl; try done.
  unfold Ascii.compare.
  destruct (N.compare_spec (N_of_ascii c1) (N_of_ascii c2)) as [E12|L12|G12];
    destruct (N.compare_spec (N_of_ascii c2) (N_of_ascii c3)) as [E23|L23|G23];
    try done; intros H12 H23.
  - rewrite E12, E23, N.compare_refl. by eapply IH.
  - by rewrite E12, (proj2 (N.compare_lt_iff _ _) L23).
  - by rewrite <- E23, (proj2 (N.compare_lt_iff _ _) L12).
  - assert (N_of_ascii c1 < N_of_ascii c3)%N as L13 by lia.
    by rewrite (proj2 (N.compare_lt_iff _ _) L13).
Qed.

Lemma ltb_lt s1 s2 : String.ltb s1 s2 = true <-> String.compare s1 s2 = Lt.
Proof. unfold String.ltb. destruct (String.compare s1 s2); naive_solver. Qed.

Lemma earlier_irrefl x : ~ earlier x x.
Proof. unfold earlier. rewrite ltb_lt, string_compare_refl. done. Qed.

Lemma earlier_trans x y z : earlier x y -> earlier y z -> earlier x z.
Proof. unfold earlier. rewrite !ltb_lt. apply string_compare_trans. Qed.

Lemma earlier_asym x y : earlier x y -> earlier y x -> x = y.
Proof. intros H1 H2. destruct (earlier_irrefl x). by eapply earlier_trans. Qed.

(** In a list whose timestamps increase strictly any two distinct
    messages are ordered. *)
Lemma increasing_total l x y :
  StronglySorted earlier l -> x ∈ l -> y ∈ l ->
  x = y \/ earlier x y \/ earlier y x.
Proof.
  induction 1 as [|z l Hl IH Hz]; [by intros ?%elem_of_nil|].
  rewrite Forall_forall in Hz.
  intros [->|Hx]%elem_of_cons [->|Hy]%elem_of_cons; auto.
Qed.

Lemma increasing_NoDup l : StronglySorted earlier l -> NoDup l.
Proof.
  induction 1 as [|z l Hl IH Hz]; constructor; [|done].
  rewrite Forall_forall in Hz. intros Hin%Hz. by apply earlier_irrefl in Hin.
Qed.

Lemma insert_by_timestamp_sorted x s :
  StronglySorted earlier s ->
  (forall y, y ∈ s -> earlier x y \/ earlier y x) ->
  StronglySorted earlier (insert_by_timestamp x s).
Proof.
  induction 1 as [|y s Hs IH Hy]; intros Htot; simpl.
  - repeat constructor.
  - destruct (String.ltb (timestamp y) (timestamp x)) eqn:E.
    + constructor.
      * apply IH. intros z Hz. apply Htot. by right.
      * apply Forall_forall. intros z [->|Hz]%elem_of_insert_by_timestamp.
        -- exact E.
        -- rewrite Forall_forall in Hy. by apply Hy.
    + assert (earlier x y) as Hxy.
      { assert (y ∈ y :: s) as Hy' by left.
        destruct (Htot y Hy') as [?|Hyx]; [done|].
        unfold earlier in Hyx. congruence. }
      constructor; [by constructor|].
      apply Forall_cons. split; [done|].
      rewrite Forall_forall in Hy |- *. intros z Hz.
      eapply earlier_trans; [done|]. by apply Hy.
Qed.

Lemma insert_by_timestamp_perm x s : insert_by_timestamp x s ≡ₚ x :: s.
Proof.
  induction s as [|y s IH]; simpl; [done|].
  destruct (String.ltb _ _); [|done]. rewrite IH. apply Permutation_swap.
Qed.

Lemma sort_by_timestamp_perm l : sort_by_timestamp l ≡ₚ l.
Proof.
  induction l as [|x l IH]; simpl; [done|].
  by rewrite insert_by_timestamp_perm, IH.
Qed.

Lemma sort_by_timestamp_sorted l :
  NoDup l ->
  (forall x y, x ∈ l -> y ∈ l -> x = y \/ earlier x y \/ earlier y x) ->
  StronglySorted earlier (sort_by_timestamp l).
Proof.
  induction l as [|x l IH]; intros Hnd Htot; simpl; [constructor|].
  apply NoDup_cons in Hnd as [Hx Hnd].
  apply insert_by_timestamp_sorted.
  - apply IH; [done|]. intros y z Hy Hz. apply Htot; by right.
  - intros y Hy. apply (proj1 (elem_of_sort_by_timestamp l y)) in Hy.
    assert (x ∈ x :: l) as Hx' by left.
    assert (y ∈ x :: l) as Hy' by (by right).
    destruct (Htot x y Hx' Hy') as [E|?].
    + subst y. by destruct Hx.
    + done.
Qed.

(** Sorting a rearrangement of a list whose timestamps increase strictly
    gives that list back. *)
Lemma sort_by_timestamp_unique l sorted :
  StronglySorted earlier sorted -> l ≡ₚ sorted ->
  sort_by_timestamp l = sorted.
Proof.
  intros Hs Hp.
  apply (StronglySorted_unique_strong earlier).
  - intros ? ? _ _. apply earlier_asym.
  - apply sort_by_timestamp_sorted.
    + rewrite Hp. by apply increasing_NoDup.
    + intros x y Hx Hy. rewrite Hp in Hx, Hy. by eapply increasing_total.
  - done.
  - by rewrite sort_by_timestamp_perm.
Qed.

(** *** The union of important and recent messages *)

Lemma dedup_elem_of seen l x :
  (forall y z, y ∈ l -> z ∈ l -> ident y = ident z -> y = z) ->
  x ∈ dedup seen l <-> x ∈ l /\ ident x ∉ seen.
Proof.
  revert seen. induction l as [|y l IH]; intros seen Hinj; simpl.
  - rewrite elem_of_nil. tauto.
  - assert (forall y z, y ∈ l -> z ∈ l -> ident y = ident z -> y = z) as Hinj'.
    { intros y' z' Hy' Hz'. apply Hinj; by right. }
    case_bool_decide as Hseen.
    + rewrite IH, elem_of_cons by done. split; [tauto|].
      intros [[->|Hx] Hn]; [done|tauto].
    + rewrite elem_of_cons, IH, elem_of_cons by done.
      rewrite elem_of_union, elem_of_singleton. split.
      * intros [->|[Hx Hn]]; [tauto|]. split; [tauto|]. intros Hs. tauto.
      * intros [[->|Hx] Hn]; [tauto|].
        destruct (decide (ident x = ident y)) as [E|E]; [|tauto].
        left. apply Hinj; [by right|by left|done].
Qed.

Lemma dedup_NoDup seen l :
  (forall y z, y ∈ l -> z ∈ l -> ident y = ident z -> y = z) ->
  NoDup (dedup seen l).
Proof.
  revert seen. induction l as [|y l IH]; intros seen Hinj; simpl.
  - constructor.
  - assert (forall y z, y ∈ l -> z ∈ l -> ident y = ident z -> y = z) as Hinj'.
    { intros y' z' Hy' Hz'. apply Hinj; by right. }
    case_bool_decide as Hseen; [by apply IH|].
    constructor; [|by apply IH].
    rewrite dedup_elem_of by done. intros [_ Hn]. apply Hn.
    apply elem_of_union. left. by apply elem_of_singleton.
Qed.

Lemma ident_inj l y z :
  NoDup (ident <$> l) -> y ∈ l -> z ∈ l -> ident y = ident z -> y = z.
Proof.
  intros Hnd Hy Hz E.
  apply list_elem_of_lookup in Hy as [i Hi]. apply list_elem_of_lookup in Hz as [j Hj].
  assert (i = j) as ->; [|congruence].
  eapply NoDup_lookup; [done| |]; rewrite list_lookup_fmap.
  - by rewrite Hi.
  - rewrite Hj. simpl. by rewrite E.
Qed.

Lemma increasing_filter (P : Message -> Prop) `{!forall x, Decision (P x)} l :
  StronglySorted earlier l -> StronglySorted earlier (filter P l).
Proof.
  induction 1 as [|x l Hl IH Hx]; [constructor|].
  rewrite filter_cons. destruct (decide (P x)); [|done].
  constructor; [done|]. rewrite Forall_forall in Hx |- *.
  intros y Hy%list_elem_of_filter. apply Hx. tauto.
Qed.

(** With distinct objects and strictly increasing timestamps the union
    is the original list without the messages that are neither important
    nor recent, in the original order. *)
Lemma combine_chronological from l :
  chronological l ->
  combine_important_recent from l = filter (kept_by from l) l.
Proof.
  intros [Hs Hid]. unfold combine_important_recent.
  apply sort_by_timestamp_unique.
  - by apply increasing_filter.
  - assert (forall y z,
               y ∈ filter (fun msg => important msg = true) l
                     ++ Py.slice_from from l ->
               z ∈ filter (fun msg => important msg = true) l
                     ++ Py.slice_from from l ->
               ident y = ident z -> y = z) as Hinj.
    { intros y z Hy Hz. apply (ident_inj l); [done| |].
      - apply elem_of_app in Hy as [Hy%list_elem_of_filter|Hy];
          [tauto|by eapply elem_of_slice_from].
      - apply elem_of_app in Hz as [Hz%list_elem_of_filter|Hz];
          [tauto|by eapply elem_of_slice_from]. }
    apply NoDup_Permutation.
    + by apply dedup_NoDup.
    + apply NoDup_filter. by apply increasing_NoDup.
    + intros x. rewrite dedup_elem_of, elem_of_app, !list_elem_of_filter by done.
      unfold kept_by. split.
      * intros [[[? ?]|Hx] _]; [tauto|].
        split; [tauto|by eapply elem_of_slice_from].
      * intros [[?|?] ?]; (split; [tauto|apply not_elem_of_empty]).
Qed.

Lemma filter_all (P : Message -> Prop) `{!forall x, Decision (P x)}
    (l : list Message) :
  (forall x, x ∈ l -> P x) -> filter P l = l.
Proof.
  induction l as [|x l IH]; intros Hall; [done|].
  rewrite filter_cons, decide_True by (apply Hall; left).
  f_equal. apply IH. intros y Hy. apply Hall. by right.
Qed.

Lemma filter_kept_split from l :
  filter (kept_by from l) l
  = filter (kept_by from l) (take (Py.slice_bound (length l) from) l)
    ++ Py.slice_from from l.
Proof.
  rewrite <- (filter_all (kept_by from l) (Py.slice_from from l))
    by (intros x Hx; by right).
  unfold Py.slice_from. by rewrite <- filter_app, take_drop.
Qed.

Lemma trim_messages_chronological m :
  chronological (messages m) ->
  0 <= max_messages m ->
  messages (trim_messages m)
  = Py.slice_from (- max_messages m) (messages m).
Proof.
  intros Hc Hk. cbn [trim_messages set_messages messages].
  rewrite combine_chronological, filter_kept_split by done.
  set (l := messages m). set (k := max_messages m) in *.
  assert (Py.slice_bound (length l) (- k)
          = if decide (k = 0) then 0%nat
            else Z.to_nat (Z.max 0 (Z.of_nat (length l) - k))) as Hn.
  { unfold Py.slice_bound.
    destruct (decide (k = 0)), (Z.ltb_spec (- k) 0); lia. }
  assert (length (Py.slice_from (- k) l)
          = (length l - Py.slice_bound (length l) (- k))%nat) as Hlen.
  { unfold Py.slice_from. by rewrite length_drop. }
  set (A := filter _ (take _ l)).
  destruct (decide (Z.of_nat (length l) <= k \/ k = 0)) as [Hsmall|Hbig].
  - assert (A = []) as ->.
    { subst A. rewrite Hn. destruct (decide (k = 0)); [done|].
      by replace (Z.to_nat _) with 0%nat by lia. }
    rewrite app_nil_l. unfold Py.slice_from at 1.
    replace (Py.slice_bound _ _) with 0%nat; [done|].
    rewrite Hlen, Hn. unfold Py.slice_bound.
    destruct (decide (k = 0)), (Z.ltb_spec (- k) 0); lia.
  - unfold Py.slice_from at 1.
    replace (Py.slice_bound _ _) with (length A + 0)%nat.
    { by rewrite drop_app_add. }
    rewrite length_app, Hlen, Hn. unfold Py.slice_bound.
    destruct (decide (k = 0)), (Z.ltb_spec (- k) 0); lia.
Qed.

(** X1: where the retained messages are distinct objects with strictly
    increasing timestamps, the count-trim pass keeps exactly the last
    [max_messages] messages, in their order: an older message is dropped
    whether it is important or not. *)
Theorem trim_messages_keeps_last m :
  chronological (messages m) ->
  0 <= max_messages m ->
  messages (trim_messages m)
  = Py.slice_from (- max_messages m) (messages m).
Proof. apply trim_messages_chronological. Qed.

Lemma trim_until_under_spec limit l :
  exists dropped,
    l = dropped ++ trim_until_under limit l
    /\ (calculate_total_tokens (trim_until_under limit l) <= limit
        \/ (length (trim_until_under limit l) <= 2)%nat)
    /\ (forall d1 d2, dropped = d1 ++ d2 -> d2 <> [] ->
          limit < calculate_total_tokens (d2 ++ trim_until_under limit l)
          /\ (2 < length (d2 ++ trim_until_under limit l))%nat).
Proof.
  induction l as [|x l (dropped & Hsplit & Hstop & Hmin)].
  - exists []. split; [done|]. split; [right; simpl; lia|].
    intros d1 d2 H Hne. by destruct d1, d2.
  - cbn [trim_until_under].
    destruct (Z.ltb_spec limit (calculate_total_tokens (x :: l))) as [Hover|Hfit];
      [destruct (Nat.ltb_spec 2 (length (x :: l))) as [Hlong|Hshort]|]; cbn [andb].
    + exists (x :: dropped). split; [by rewrite <- app_comm_cons, <- Hsplit|].
      split; [done|]. intros [|y d1] d2 Hd Hne.
      * simpl in Hd. subst d2. rewrite <- app_comm_cons, <- Hsplit. done.
      * injection Hd as -> Hd. by apply (Hmin d1 d2).
    + exists []. split; [done|]. split; [right; lia|].
      intros d1 d2 H Hne. by destruct d1, d2.
    + exists []. split; [done|]. split; [left; lia|].
      intros d1 d2 H Hne. by destruct d1, d2.
Qed.

(** X2: in every state the compression pass leaves the total within the
    ceiling unless it is down to two messages, the total being the sum
    over what it retains; and where the retained messages are distinct
    objects with strictly increasing timestamps, what it keeps is a final
    segment of the important-or-recent messages in their original order,
    the oldest being dropped first and no more of them than needed. *)
Theorem compress_context_drops_oldest m :
  (total_tokens (compress_context m)
   = calculate_total_tokens (messages (compress_context m))
   /\ (total_tokens (compress_context m) <= max_tokens m
       \/ (length (messages (compress_context m)) <= 2)%nat))
  /\ (chronological (messages m) ->
      exists dropped,
        filter (kept_by (-4) (messages m)) (messages m)
        = dropped ++ messages (compress_context m)
        /\ (total_tokens (compress_context m) <= max_tokens m
            \/ (length (messages (compress_context m)) <= 2)%nat)
        /\ (forall d1 d2, dropped = d1 ++ d2 -> d2 <> [] ->
              max_tokens m
              < calculate_total_tokens (d2 ++ messages (compress_context m))
              /\ (2 < length (d2 ++ messages (compress_context m)))%nat)).
Proof.
  split.
  - cbn [compress_context set_messages messages total_tokens max_tokens].
    split; [done|].
    destruct (trim_until_under_spec (max_tokens m)
                (combine_important_recent (-4) (messages m)))
      as (dropped & _ & Hstop & _).
    exact Hstop.
  - intros Hc. cbn [compress_context set_messages messages total_tokens].
    rewrite combine_chronological by done.
    apply trim_until_under_spec.
Qed.

End MemoryOrder.

(** ** ConversationMemory: runs *)

Module MemoryRuns.

Import Memory MemoryFacts.

Lemma Forall_dedup (P : Message -> Prop) seen l :
  Forall P l -> Forall P (dedup seen l).
Proof.
  rewrite !Forall_forall. intros H x Hx%elem_of_dedup. by apply H.
Qed.

Lemma Forall_combine' (P : Message -> Prop) from l :
  Forall P l -> Forall P (combine_important_recent from l).
Proof.
  rewrite !Forall_forall. intros H y Hy.
  unfold combine_important_recent in Hy.
  apply elem_of_sort_by_timestamp, elem_of_dedup, elem_of_app in Hy.
  destruct Hy as [Hy|Hy]; apply H.
  - by apply list_elem_of_filter in Hy as [_ ?].
  - by eapply elem_of_slice_from.
Qed.

Lemma Forall_compress (P : Message -> Prop) m :
  Forall P (messages m) -> Forall P (messages (compress_context m)).
Proof.
  intros H. simpl. apply Forall_forall.
  intros y Hy%elem_of_trim_until_under. revert y Hy. apply Forall_forall.
  by apply Forall_combine'.
Qed.

Lemma Forall_trim (P : Message -> Prop) m :
  Forall P (messages m) -> Forall P (messages (trim_messages m)).
Proof.
  intros H. simpl. by apply Forall_slice_from, Forall_combine'.
Qed.

(** *** Summarization *)

Lemma slice_to_short {A} (l : list A) :
  (length l <= 4)%nat -> Py.slice_to (-4) l = [].
Proof.
  intros H. unfold Py.slice_to, Py.slice_bound. simpl.
  by replace (Z.to_nat _) with 0%nat by lia.
Qed.

Lemma slice_split {A} (i : Z) (l : list A) :
  Py.slice_to i l ++ Py.slice_from i l = l.
Proof. apply take_drop. Qed.

Lemma slice_from_long {A} (l : list A) :
  (4 < length l)%nat ->
  length (Py.slice_from (-4) l) = 4%nat /\ Py.slice_to (-4) l <> [].
Proof.
  intros H. unfold Py.slice_from, Py.slice_to, Py.slice_bound. simpl.
  rewrite length_drop. split; [lia|].
  intros E%(f_equal length). rewrite length_take in E. simpl in E. lia.
Qed.

(** X3: with at most four messages the summarizer changes nothing; with
    more it leaves exactly five: one system message flagged as summary,
    not important, whose token estimate is that of the digest of the
    older messages, followed by the last four messages unchanged; the
    running total is recomputed from these five. *)
Theorem summarize_old_messages_shape now m :
  ((length (messages m) <= 4)%nat -> summarize_old_messages now m = m)
  /\ ((4 < length (messages m))%nat ->
      exists s,
        messages (summarize_old_messages now m)
        = s :: Py.slice_from (-4) (messages m)
        /\ length (messages (summarize_old_messages now m)) = 5%nat
        /\ role s = "system"%string /\ important s = false
        /\ is_summary s = true /\ timestamp s = now
        /\ tokens s
           = estimate_tokens (create_summary (Py.slice_to (-4) (messages m)))
        /\ content s
           = String.append "Previous conversation summary: "
               (create_summary (Py.slice_to (-4) (messages m)))
        /\ total_tokens (summarize_old_messages now m)
           = tokens s
             + calculate_total_tokens (Py.slice_from (-4) (messages m))).
Proof.
  unfold summarize_old_messages. split.
  - intros H. destruct (_ <=? _)%nat; [done|]. by rewrite slice_to_short.
  - intros H. destruct (slice_from_long (messages m) H) as [Hlen Hne].
    destruct (Nat.leb_spec (length (messages m)) 2); [lia|].
    destruct (Py.slice_to (-4) (messages m)) as [|x older] eqn:E; [done|].
    eexists. split; [reflexivity|]. cbn [messages set_messages length].
    rewrite Hlen. repeat split; reflexivity.
Qed.

(** *** Runs that never summarize *)

Lemma manage_memory_threshold now m :
  summarize_threshold (manage_memory now m) = summarize_threshold m.
Proof.
  unfold manage_memory, summarize_old_messages.
  repeat (destruct (_ <? _); simpl); try done;
    destruct (_ <=? _)%nat; try done; by destruct (Py.slice_to _ _).
Qed.

Lemma add_message_threshold r c now now' m :
  summarize_threshold (add_message r c now now' m) = summarize_threshold m.
Proof. unfold add_message. by rewrite manage_memory_threshold. Qed.

Lemma add_message_plain r c now now' m :
  1 <= max_messages m -> max_messages m < summarize_threshold m ->
  Py.len (messages m) <= max_messages m ->
  plain m -> plain (add_message r c now now' m).
Proof.
  intros H1 Hlt Hlen Hp. unfold add_message, manage_memory.
  set (m0 := set_messages _ _ _ m).
  assert (plain m0) as Hp0.
  { unfold plain. subst m0. simpl. apply Forall_app. split; [done|].
    by apply Forall_singleton. }
  assert ((summarize_threshold m0 <? Py.len (messages m0)) = false) as ->.
  { apply Z.ltb_ge. subst m0. unfold Py.len in *. simpl.
    rewrite length_app. simpl. lia. }
  set (m2 := if _ <? _ then _ else m0).
  assert (plain m2) as Hp2.
  { subst m2. destruct (_ <? _); [by apply Forall_compress|done]. }
  clearbody m2. destruct (_ <? _); [by apply Forall_trim|done].
Qed.

(** X4: where the message limit is below the summarization threshold (as
    with the defaults, 10 and 15) no run ever summarizes: no retained
    message is a summary, whatever is added. *)
Theorem run_never_summarizes mt mm st kws calls :
  1 <= mm -> mm < st ->
  Forall (fun msg => is_summary msg = false)
         (messages (run calls (init mt mm st kws))).
Proof.
  intros H1 Hlt.
  induction calls as [|c calls IH] using rev_ind; [by constructor|].
  rewrite run_snoc. apply add_message_plain.
  - by rewrite run_max_messages.
  - assert (summarize_threshold (run calls (init mt mm st kws)) = st) as ->.
    { clear IH. induction calls as [|c' calls IH] using rev_ind; [done|].
      by rewrite run_snoc, add_message_threshold. }
    by rewrite run_max_messages.
  - rewrite run_max_messages. by apply run_invariant.
  - exact IH.
Qed.

(** *** Statistics *)

Lemma manage_memory_summary now m : summary (manage_memory now m) = summary m.
Proof.
  unfold manage_memory, summarize_old_messages.
  repeat (destruct (_ <? _); simpl); try done;
    destruct (_ <=? _)%nat; try done; by destruct (Py.slice_to _ _).
Qed.

Lemma run_summary calls m : summary (run calls m) = summary m.
Proof.
  induction calls as [|c calls IH] using rev_ind; [done|].
  rewrite run_snoc. unfold add_message. by rewrite manage_memory_summary.
Qed.

(** X5: [get_stats] never reports a summary, not even when the first
    retained message is one: the attribute it reads is set to [None] at
    construction and by [clear] and is assigned nowhere else.  Its message
    and token counts are those of the retained messages, and the count of
    important messages is at most the count of messages. *)
Theorem get_stats_of_run mt mm st kws calls :
  let m := run calls (init mt mm st kws) in
  stat_has_summary (get_stats m) = false
  /\ stat_total_tokens (get_stats m) = calculate_total_tokens (messages m)
  /\ 0 <= stat_important_messages (get_stats m) <= stat_total_messages (get_stats m).
Proof.
  intros m. subst m. split; [|split].
  - unfold get_stats. cbn [stat_has_summary]. by rewrite run_summary.
  - by apply run_total_ok.
  - unfold get_stats, Py.len. cbn [stat_important_messages stat_total_messages].
    pose proof (length_filter (fun msg => important msg = true)
                  (messages (run calls (init mt mm st kws)))). lia.
Qed.

End MemoryRuns.

(** ** ConversationMemory: what a run retains *)

Module MemoryHistory.

Import Memory MemoryFacts MemoryOrder MemoryRuns.

Lemma chronological_witness_crowded :
  chronological [Scenarios.msg_a; Scenarios.msg_b; Scenarios.msg_c;
                 Scenarios.msg_d; Scenarios.msg_e].
Proof.
  split.
  - repeat (constructor; [|repeat (constructor; try reflexivity)]).
    constructor.
  - apply (bool_decide_unpack _). vm_compute. exact I.
Qed.

Lemma trim_messages_keeps_last_witness :
  chronological (messages Scenarios.over_count)
  /\ 0 <= max_messages Scenarios.over_count
  /\ messages (trim_messages Scenarios.over_count)
     = [Scenarios.msg_c; Scenarios.msg_d; Scenarios.msg_e].
Proof.
  split; [exact chronological_witness_crowded|]. split; [simpl; lia|].
  exact (trim_messages_keeps_last Scenarios.over_count
           chronological_witness_crowded ltac:(simpl; lia)).
Defined.

Lemma compress_context_drops_oldest_witness :
  chronological (messages Scenarios.crowded)
  /\ exists dropped,
      filter (kept_by (-4) (messages Scenarios.crowded))
             (messages Scenarios.crowded)
      = dropped ++ messages (compress_context Scenarios.crowded)
      /\ (total_tokens (compress_context Scenarios.crowded)
          <= max_tokens Scenarios.crowded
          \/ (length (messages (compress_context Scenarios.crowded)) <= 2)%nat)
      /\ (forall d1 d2, dropped = d1 ++ d2 -> d2 <> [] ->
            max_tokens Scenarios.crowded
            < calculate_total_tokens
                (d2 ++ messages (compress_context Scenarios.crowded))
            /\ (2 < length (d2 ++ messages (compress_context Scenarios.crowded)))%nat).
Proof.
  split; [exact chronological_witness_crowded|].
  exact (proj2 (compress_context_drops_oldest Scenarios.crowded)
           chronological_witness_crowded).
Defined.

(** *** What a run retains *)

Lemma all_messages_snoc kws calls c :
  all_messages kws (calls ++ [c])
  = all_messages kws calls ++ [message_of kws (length calls) c].
Proof.
  unfold all_messages. rewrite imap_app. simpl. by rewrite Nat.add_0_r.
Qed.

Lemma all_messages_length kws calls :
  length (all_messages kws calls) = length calls.
Proof. unfold all_messages. apply length_imap. Qed.

Lemma all_messages_ident kws calls :
  ident <$> all_messages kws calls = seq 0 (length calls).
Proof.
  induction calls as [|c calls IH] using rev_ind; [done|].
  rewrite all_messages_snoc, fmap_app, IH, length_app, seq_app. done.
Qed.

Lemma all_messages_sorted kws calls :
  ticking calls -> StronglySorted earlier (all_messages kws calls).
Proof.
  induction calls as [|c calls IH] using rev_ind; [constructor|].
  unfold ticking. rewrite StronglySorted_app. intros (Hlast & Hs & _).
  rewrite all_messages_snoc. apply StronglySorted_app. split; [|split].
  - intros x y Hx ->%list_elem_of_singleton.
    unfold all_messages in Hx. apply elem_of_lookup_imap in Hx as (i & c' & -> & Hc').
    unfold earlier. simpl. apply Hlast; [|apply list_elem_of_singleton; done].
    by eapply list_elem_of_lookup_2.
  - by apply IH.
  - repeat constructor.
Qed.

Lemma all_messages_chronological kws calls :
  ticking calls -> chronological (all_messages kws calls).
Proof.
  intros H. split; [by apply all_messages_sorted|].
  rewrite all_messages_ident. apply NoDup_seq.
Qed.

Lemma chronological_drop n l : chronological l -> chronological (drop n l).
Proof.
  intros [Hs Hn]. rewrite <- (take_drop n l) in Hs, Hn. split.
  - by apply StronglySorted_app in Hs as (_ & _ & ?).
  - rewrite fmap_app in Hn. by apply NoDup_app in Hn as (_ & _ & ?).
Qed.

Lemma all_messages_tokens kws calls :
  Forall (fun msg => 0 <= tokens msg) (all_messages kws calls).
Proof.
  apply Forall_forall. intros x Hx. unfold all_messages in Hx.
  apply elem_of_lookup_imap in Hx as (i & c & -> & _).
  apply estimate_tokens_nonneg.
Qed.

Lemma calculate_total_tokens_drop n l :
  Forall (fun msg => 0 <= tokens msg) l ->
  calculate_total_tokens (drop n l) <= calculate_total_tokens l.
Proof.
  intros H. rewrite <- (take_drop n l) at 2.
  rewrite calculate_total_tokens_app.
  assert (0 <= calculate_total_tokens (take n l)); [|lia].
  apply calculate_total_tokens_nonneg. by apply Forall_take.
Qed.

Lemma slice_from_snoc {A} (k : Z) (l : list A) (x : A) :
  1 <= k ->
  Py.slice_from (- k) (Py.slice_from (- k) l ++ [x])
  = Py.slice_from (- k) (l ++ [x]).
Proof.
  intros Hk.
  assert (forall n : nat, Py.slice_bound n (- k)
                          = Z.to_nat (Z.max 0 (Z.of_nat n - k))) as Hb.
  { intros n. unfold Py.slice_bound. destruct (Z.ltb_spec (- k) 0); lia. }
  unfold Py.slice_from. rewrite !Hb.
  set (n := Z.to_nat (Z.max 0 (Z.of_nat (length l) - k))).
  assert (n <= length l)%nat by lia.
  rewrite <- (drop_app_le l [x] n) by done.
  rewrite drop_drop. f_equal.
  rewrite length_drop, !length_app. simpl. lia.
Qed.

Lemma slice_from_short {A} (k : Z) (l : list A) :
  Py.len l <= k -> Py.slice_from (- k) l = l.
Proof.
  intros H. unfold Py.slice_from, Py.slice_bound, Py.len in *.
  destruct (Z.ltb_spec (- k) 0).
  - by replace (Z.to_nat _) with 0%nat by lia.
  - by replace (Z.to_nat _) with 0%nat by lia.
Qed.

(** X6: a run with strictly increasing clock readings, a message limit
    of at least one and below the summarization threshold, and token
    estimates that fit the ceiling all together, retains exactly the
    messages of its last [max_messages] calls, in the order of the
    calls. *)
Theorem run_keeps_last mt mm st kws calls :
  1 <= mm -> mm < st ->
  ticking calls ->
  calculate_total_tokens
    (all_messages (important_keywords (init mt mm st kws)) calls) <= mt ->
  messages (run calls (init mt mm st kws))
  = Py.slice_from (- mm)
      (all_messages (important_keywords (init mt mm st kws)) calls).
Proof.
  intros H1 Hlt. set (kws' := important_keywords _).
  assert (forall calls,
             ticking calls ->
             calculate_total_tokens (all_messages kws' calls) <= mt ->
             let m := run calls (init mt mm st kws) in
             messages m = Py.slice_from (- mm) (all_messages kws' calls)
             /\ next_ident m = length calls
             /\ important_keywords m = kws'
             /\ max_tokens m = mt /\ max_messages m = mm
             /\ summarize_threshold m = st) as Hinv; [|intros; by apply Hinv].
  clear calls. intros calls.
  induction calls as [|c calls IH] using rev_ind; intros Htick Hfit.
  { split; [|repeat split]. cbn. unfold Py.slice_from. by rewrite drop_nil. }
  assert (ticking calls) as Htick'.
  { unfold ticking in *. by apply StronglySorted_app in Htick as (_ & ? & _). }
  rewrite all_messages_snoc, calculate_total_tokens_app in Hfit.
  assert (0 <= tokens (message_of kws' (length calls) c)) as Hnew
    by apply estimate_tokens_nonneg.
  change (calculate_total_tokens [message_of kws' (length calls) c])
    with (tokens (message_of kws' (length calls) c) + 0) in Hfit.
  destruct IH as (Hmsgs & Hid & Hkw & Hmt & Hmm & Hst); [done|lia|].
  cbv zeta. rewrite run_snoc.
  set (m := run calls (init mt mm st kws)) in *.
  assert (total_ok m) as Htot by (by apply run_total_ok).
  unfold add_message.
  rewrite Hid, Hkw. fold (message_of kws' (length calls) c).
  set (new := message_of kws' (length calls) c) in *.
  set (m0 := set_messages _ _ _ m).
  assert (messages m0
          = drop (Py.slice_bound (length (all_messages kws' calls)) (- mm))
                 (all_messages kws' (calls ++ [c]))) as Hm0.
  { subst m0. cbn [messages set_messages]. rewrite Hmsgs, all_messages_snoc.
    unfold Py.slice_from. rewrite drop_app_le; [done|].
    unfold Py.slice_bound. destruct (Z.ltb_spec (- mm) 0); lia. }
  assert (Py.len (messages m0) <= mm + 1) as Hlen0.
  { subst m0. cbn [messages set_messages]. unfold Py.len.
    rewrite length_app. simpl.
    pose proof (run_invariant mt mm st kws calls H1) as [_ Hle].
    fold m in Hle. unfold Py.len in Hle. lia. }
  assert (total_tokens m0 <= mt) as Htok0.
  { subst m0. cbn [total_tokens set_messages]. rewrite Htot, Hmsgs.
    pose proof (calculate_total_tokens_drop
                  (Py.slice_bound (length (all_messages kws' calls)) (- mm))
                  (all_messages kws' calls) (all_messages_tokens kws' calls)).
    unfold Py.slice_from.
    change (tokens {| ident := _; role := _; content := _; timestamp := _;
                      tokens := _; important := _; is_summary := _ |})
      with (tokens new). lia. }
  unfold manage_memory.
  assert ((summarize_threshold m0 <? Py.len (messages m0)) = false) as ->.
  { apply Z.ltb_ge. subst m0. cbn [summarize_threshold set_messages] in *. lia. }
  assert ((max_tokens m0 <? total_tokens m0) = false) as ->.
  { apply Z.ltb_ge. subst m0. cbn [max_tokens set_messages] in *. lia. }
  assert (messages (if max_messages m0 <? Py.len (messages m0)
                    then trim_messages m0 else m0)
          = Py.slice_from (- mm) (all_messages kws' (calls ++ [c]))) as Hres.
  { rewrite all_messages_snoc, <- slice_from_snoc, <- Hmsgs by done.
    change (max_messages m0) with (max_messages m). rewrite Hmm.
    destruct (Z.ltb_spec mm (Py.len (messages m0))) as [Hover|Hunder].
    - rewrite trim_messages_chronological.
      + change (max_messages m0) with (max_messages m). by rewrite Hmm.
      + rewrite Hm0. apply chronological_drop.
        by apply all_messages_chronological.
      + change (max_messages m0) with (max_messages m). lia.
    - by rewrite slice_from_short. }
  split; [exact Hres|].
  rewrite length_app, Nat.add_1_r.
  destruct (_ <? _); repeat split; done.
Qed.

Lemma run_keeps_last_witness :
  (content <$> messages (run Scenarios.six_calls (init 2000 4 15 None)))
  = ["three"; "four"; "five"; "six"]%string.
Proof.
  rewrite (run_keeps_last 2000 4 15 None Scenarios.six_calls);
    [reflexivity|lia|lia| |vm_compute; discriminate].
  repeat (constructor; [|repeat (constructor; try reflexivity)]).
  constructor.
Defined.

End MemoryHistory.

(** ** ContextAnalyzer: what decides the answer *)

Module ContextMore.

Import Memory Context ContextFacts.

Lemma references_previous_closed question history :
  references_previous question history
  = strong_reference question || any_in context_keywords question.
Proof.
  unfold references_previous, strong_reference.
  destruct (Py.startswith _ "what is it" || _); [done|]. cbn [orb].
  destruct (any_in strong_references _); [done|]. cbn [orb].
  destruct (any_in context_keywords question); [|done]. cbn [negb].
  by destruct (match extract_topics _ with [] => _ | _ => _ end).
Qed.

(** X7: the answer of [needs_context] depends on the history only
    through its being empty or not: neither the topics of the history
    nor the standalone patterns change it. *)
Theorem needs_context_ignores_history question history1 history2 :
  history1 <> [] -> history2 <> [] ->
  needs_context question history1 = needs_context question history2
  /\ needs_context question history1
     = (let q := Py.strip (Py.lower question) in
        any_in reference_words (pad q) || is_follow_up q
        || strong_reference q || any_in context_keywords q).
Proof.
  intros H1 H2.
  assert (forall h, h <> [] ->
            needs_context question h
            = (let q := Py.strip (Py.lower question) in
               any_in reference_words (pad q) || is_follow_up q
               || strong_reference q || any_in context_keywords q)) as Hc.
  { intros [|e h] Hne; [done|]. unfold needs_context. cbv zeta.
    rewrite references_previous_closed.
    destruct (any_in reference_words _); [done|].
    destruct (is_follow_up _); [done|]. cbn [orb].
    destruct (strong_reference _ || _); [done|].
    by destruct (is_standalone_question _). }
  split; [by rewrite !Hc|by apply Hc].
Qed.

Lemma needs_context_ignores_history_witness :
  needs_context "give another example" Scenarios.greeting
  = needs_context "give another example"
      [{| entry_role := "user"; entry_content := "give another example" |}].
Proof.
  apply (needs_context_ignores_history "give another example"); discriminate.
Defined.

(** X8: [get_relevant_context] answers [None] exactly when no context
    is needed; otherwise, for a bound of at least one, it returns the last
    [max_messages] messages of the history (all of it when it is shorter),
    and for a bound of zero the whole history, [history[-0:]]. *)
Theorem get_relevant_context_bound question history k :
  (needs_context question history = false ->
   get_relevant_context question history k = None)
  /\ (needs_context question history = true -> 1 <= k ->
      exists ctx,
        get_relevant_context question history k = Some ctx
        /\ ctx `suffix_of` history
        /\ Py.len ctx = Z.min k (Py.len history))
  /\ (needs_context question history = true ->
      get_relevant_context question history 0 = Some history).
Proof.
  unfold get_relevant_context. split; [|split].
  - by intros ->.
  - intros -> Hk. cbn [negb].
    destruct (Z.leb_spec k (Py.len history)) as [Hle|Hgt].
    + eexists. split; [done|]. split; [apply suffix_drop|].
      unfold Py.len, Py.slice_from, Py.slice_bound in *. rewrite length_drop.
      destruct (Z.ltb_spec (- k) 0); lia.
    + eexists. split; [done|]. split; [done|]. lia.
  - intros ->. cbn [negb].
    destruct (Z.leb_spec 0 (Py.len history)) as [_|Hneg];
      [|unfold Py.len in Hneg; lia].
    f_equal. apply MemoryFacts.slice_from_zero.
Qed.

Lemma get_relevant_context_bound_witness :
  exists ctx,
    get_relevant_context "and what about that?"
      [{| entry_role := "user"; entry_content := "first" |};
       {| entry_role := "assistant"; entry_content := "second" |};
       {| entry_role := "user"; entry_content := "third" |}] 2 = Some ctx
    /\ Py.len ctx = 2.
Proof.
  destruct (get_relevant_context_bound "and what about that?"
      [{| entry_role := "user"; entry_content := "first" |};
       {| entry_role := "assistant"; entry_content := "second" |};
       {| entry_role := "user"; entry_content := "third" |}] 2)
    as (_ & Hsome & _).
  destruct Hsome as (ctx & Hctx & _ & Hlen); [reflexivity|lia|].
  exists ctx. split; [exact Hctx|exact Hlen].
Defined.

(** *** Topics *)

Lemma elem_of_slice_to {A} (i : Z) (l : list A) (x : A) :
  x ∈ Py.slice_to i l -> x ∈ l.
Proof.
  unfold Py.slice_to. intros Hx.
  rewrite <- (take_drop (Py.slice_bound (length l) i) l).
  apply elem_of_app. by left.
Qed.

Lemma slice_to_five_length {A} (l : list A) : (length (Py.slice_to 5 l) <= 5)%nat.
Proof.
  unfold Py.slice_to, Py.slice_bound. rewrite length_take. simpl.
  destruct (Z.ltb_spec 5 0); lia.
Qed.

Lemma significant_spec stop text w :
  w ∈ significant stop text ->
  (4 <= String.length w)%nat /\ all_chars Py.is_lower w = true /\ w ∉ stop.
Proof.
  unfold significant, findall_words.
  intros [[Hw Hre]%filter_In Hs]%list_elem_of_In%filter_In.
  apply andb_true_iff in Hre as [Hlow Hlen%Nat.leb_le].
  apply negb_true_iff, bool_decide_eq_false in Hs. done.
Qed.

(** X9: every topic extracted from messages or from a text is a word of
    at least four characters, all of them lower-case letters, that is not
    a stop word; a message gives at most five topics. *)
Theorem extract_topics_spec msgs text :
  (forall w, w ∈ extract_topics msgs ->
             (4 <= String.length w)%nat /\ all_chars Py.is_lower w = true
             /\ w ∉ common_words)
  /\ (length (extract_topics msgs) <= 5 * length msgs)%nat
  /\ (forall w, w ∈ extract_topics_from_text text ->
                (4 <= String.length w)%nat /\ all_chars Py.is_lower w = true
                /\ w ∉ common_words_text)
  /\ (length (extract_topics_from_text text) <= 5)%nat.
Proof.
  split; [|split; [|split]].
  - intros w Hw. unfold extract_topics in Hw.
    apply list_elem_of_In, in_flat_map in Hw as (msg & _ & Hw).
    apply list_elem_of_In, elem_of_slice_to in Hw. by eapply significant_spec.
  - unfold extract_topics. induction msgs as [|msg msgs IH]; [done|].
    cbn [flat_map]. rewrite length_app.
    pose proof (slice_to_five_length
                  (significant common_words (Py.lower (entry_content msg)))).
    simpl length. lia.
  - intros w Hw%elem_of_slice_to. by eapply significant_spec.
  - apply slice_to_five_length.
Qed.

End ContextMore.

(** ** ContextAnalyzer: case and white space *)

Module ContextCase.

Import Memory Context ContextFacts.

Lemma lower_char_idemp c : Py.lower_char (Py.lower_char c) = Py.lower_char c.
Proof. by destruct c as [[] [] [] [] [] [] [] []]. Qed.

Lemma lower_char_space c : Py.is_space (Py.lower_char c) = Py.is_space c.
Proof. by destruct c as [[] [] [] [] [] [] [] []]. Qed.

Lemma lower_idemp s : Py.lower (Py.lower s) = Py.lower s.
Proof.
  unfold Py.lower. induction s as [|c s IH]; [done|].
  cbn [Py.map_string]. by rewrite lower_char_idemp, IH.
Qed.

Lemma lower_lstrip s : Py.lower (Py.lstrip s) = Py.lstrip (Py.lower s).
Proof.
  unfold Py.lower. induction s as [|c s IH]; [done|].
  cbn [Py.map_string Py.lstrip]. rewrite lower_char_space.
  by destruct (Py.is_space c).
Qed.

Lemma lower_rstrip s : Py.lower (Py.rstrip s) = Py.rstrip (Py.lower s).
Proof.
  unfold Py.lower. induction s as [|c s IH]; [done|].
  cbn [Py.map_string Py.rstrip]. rewrite <- IH, lower_char_space.
  destruct (Py.rstrip s); [by destruct (Py.is_space c)|done].
Qed.

Lemma lower_strip s : Py.lower (Py.strip s) = Py.strip (Py.lower s).
Proof. unfold Py.strip. by rewrite lower_rstrip, lower_lstrip. Qed.

Lemma lstrip_trimmed s : Py.trimmed_left (Py.lstrip s).
Proof.
  induction s as [|c s IH]; [done|]. simpl.
  by destruct (Py.is_space c) eqn:E.
Qed.

Lemma lstrip_id s : Py.trimmed_left s -> Py.lstrip s = s.
Proof. destruct s as [|c s]; [done|]. simpl. by intros ->. Qed.

Lemma rstrip_trimmed s : Py.trimmed_left s -> Py.trimmed_left (Py.rstrip s).
Proof.
  destruct s as [|c s]; [done|]. simpl. intros Hc.
  destruct (Py.rstrip s); [by rewrite Hc|done].
Qed.

Lemma rstrip_idemp s : Py.rstrip (Py.rstrip s) = Py.rstrip s.
Proof.
  induction s as [|c s IH]; [done|]. cbn [Py.rstrip].
  destruct (Py.rstrip s) as [|c' s'] eqn:E.
  - destruct (Py.is_space c) eqn:Ec; [done|]. simpl. by rewrite Ec.
  - cbn [Py.rstrip]. cbn [Py.rstrip] in IH. rewrite IH. done.
Qed.

Lemma strip_idemp s : Py.strip (Py.strip s) = Py.strip s.
Proof.
  unfold Py.strip.
  rewrite (lstrip_id (Py.rstrip (Py.lstrip s)))
    by apply rstrip_trimmed, lstrip_trimmed.
  apply rstrip_idemp.
Qed.

(** X10: [needs_context] looks at the question lower-cased and stripped
    only: letter case and white space around the question do not change
    its answer. *)
Theorem needs_context_normalizes question history :
  needs_context (Py.lower question) history = needs_context question history
  /\ needs_context (Py.strip question) history = needs_context question history.
Proof.
  destruct history as [|e h]; [done|]. unfold needs_context.
  by rewrite lower_idemp, lower_strip, strip_idemp.
Qed.

End ContextCase.

(** ** RateLimiter: answers, isolation and size *)

Module RateLimitMore.

Import RateLimit RateLimitFacts.

Lemma within_app w now h1 h2 :
  within w now (h1 ++ h2) = within w now h1 ++ within w now h2.
Proof. unfold within. apply List.filter_app. Qed.

Lemma is_allowed_by_counts id t rl :
  fst (is_allowed id t rl)
  = if requests_per_minute rl <=? minute_count id t rl
    then (false, Some (exceeded_message (requests_per_minute rl) "minute"))
    else if requests_per_hour rl <=? hour_count id t rl
    then (false, Some (exceeded_message (requests_per_hour rl) "hour"))
    else if requests_per_day rl <=? day_count id t rl
    then (false, Some (exceeded_message (requests_per_day rl) "day"))
    else (true, None).
Proof.
  unfold minute_count, hour_count, day_count, is_allowed.
  cbn [requests_per_minute requests_per_hour requests_per_day set_history].
  rewrite !within_pruned by lra.
  by repeat (destruct (_ <=? _); [done|]).
Qed.

Lemma window_nested (t w1 w2 : Q) (h : list Q) :
  (w1 <= w2)%Q ->
  (length (filter (fun ts => (t - w1 < ts)%Q) h)
   <= length (filter (fun ts => (t - w2 < ts)%Q) h))%nat.
Proof.
  intros Hw. induction h as [|ts h IH]; [done|].
  rewrite !filter_cons.
  destruct (decide (t - w1 < ts)%Q) as [H1|H1];
    destruct (decide (t - w2 < ts)%Q) as [H2|H2]; simpl; try lia.
  exfalso. apply H2. lra.
Qed.

(** X11: which window a rejection names.  Counting, for each window,
    the stored timestamps [ts] of the identifier with [t - window < ts],
    the first window in the order minute, hour, day whose count has
    reached its ceiling rejects the call, and the reason reads
    "Rate limit exceeded: <ceiling> requests per <window>" for that
    window, whatever the later windows hold; with none the call is
    admitted without a reason.  The three counts are nested: a window
    holds at least what a shorter one holds. *)
Theorem is_allowed_first_window id t rl :
  let stored (window : Q) :=
    Z.of_nat (length (filter (fun ts => (t - window < ts)%Q)
                             (history_of id rl))) in
  let reason (limit : Z) (window : string) :=
    Some (String.append "Rate limit exceeded: "
            (String.append (Py.str_of_int limit)
               (String.append " requests per " window))) in
  fst (is_allowed id t rl)
  = (if requests_per_minute rl <=? stored 60%Q
     then (false, reason (requests_per_minute rl) "minute"%string)
     else if requests_per_hour rl <=? stored 3600%Q
     then (false, reason (requests_per_hour rl) "hour"%string)
     else if requests_per_day rl <=? stored 86400%Q
     then (false, reason (requests_per_day rl) "day"%string)
     else (true, None))
  /\ stored 60%Q <= stored 3600%Q <= stored 86400%Q
  /\ stored 86400%Q <= Py.len (history_of id rl)
  /\ (requests_per_minute rl = 10 -> 10 <= stored 60%Q ->
      fst (is_allowed id t rl)
      = (false, Some "Rate limit exceeded: 10 requests per minute"%string)).
Proof.
  intros stored reason.
  assert (stored 60%Q = minute_count id t rl) as Em
    by (symmetry; apply window_count).
  assert (stored 3600%Q = hour_count id t rl) as Eh
    by (symmetry; apply window_count).
  assert (stored 86400%Q = day_count id t rl) as Ed
    by (symmetry; apply window_count).
  assert (forall w1 w2 : Q, (w1 <= w2)%Q -> stored w1 <= stored w2) as Hmono.
  { intros w1 w2 Hw. subst stored. cbv beta.
    pose proof (window_nested t w1 w2 (history_of id rl) Hw). lia. }
  split; [|split; [|split]].
  - rewrite Em, Eh, Ed. apply is_allowed_by_counts.
  - split; apply Hmono; lra.
  - rewrite Ed. unfold day_count, Py.len.
    pose proof (within_length 86400 t (history_of id rl)). lia.
  - intros Hten Hfull. rewrite is_allowed_by_counts, <- Em, Hten.
    destruct (Z.leb_spec 10 (stored 60%Q)); [reflexivity|lia].
Qed.

Lemma is_allowed_first_window_witness :
  fst (is_allowed "u1" 1005
         (snd (run_calls "u1" (repeat 1000%Q 10) default_limiter)))
  = (false, Some "Rate limit exceeded: 10 requests per minute"%string).
Proof.
  apply (proj2 (proj2 (proj2
           (is_allowed_first_window "u1" 1005
              (snd (run_calls "u1" (repeat 1000%Q 10) default_limiter)))))).
  - reflexivity.
  - vm_compute. discriminate.
Defined.

(** X12: after an admitted call the three window counts at the time of
    the call, the call included, are within their ceilings. *)
Theorem admitted_within_ceilings id t rl :
  fst (fst (is_allowed id t rl)) = true ->
  minute_count id t (snd (is_allowed id t rl)) <= requests_per_minute rl
  /\ hour_count id t (snd (is_allowed id t rl)) <= requests_per_hour rl
  /\ day_count id t (snd (is_allowed id t rl)) <= requests_per_day rl.
Proof.
  intros Hadm. pose proof Hadm as (Hm & Hh & Hd)%is_allowed_iff.
  rewrite is_allowed_admit by done. cbn [snd].
  unfold minute_count, hour_count, day_count in *.
  rewrite history_of_set_history, !within_app, !within_pruned by lra.
  rewrite !(within_cons_in _ t t []) by lra.
  unfold Py.len in *. rewrite !length_app. simpl. lia.
Qed.

Lemma admitted_within_ceilings_witness :
  minute_count "u1" 2000 (snd (is_allowed "u1" 2000 Scenarios.exhausted)) <= 2.
Proof.
  apply (admitted_within_ceilings "u1" 2000 Scenarios.exhausted).
  vm_compute. reflexivity.
Defined.

Lemma get_remaining_requests_value id period t rl :
  fst (get_remaining_requests id period t rl)
  = if String.eqb period "minute"
    then Z.max 0 (requests_per_minute rl - minute_count id t rl)
    else if String.eqb period "hour"
    then Z.max 0 (requests_per_hour rl - hour_count id t rl)
    else if String.eqb period "day"
    then Z.max 0 (requests_per_day rl - day_count id t rl)
    else 0.
Proof.
  unfold get_remaining_requests.
  by repeat (destruct (String.eqb period _); [done|]).
Qed.

Lemma history_of_insert_same id id' rl :
  history_of id' (set_history id (history_of id rl) rl) = history_of id' rl.
Proof.
  destruct (decide (id = id')) as [->|Hne].
  - apply history_of_set_history.
  - by apply history_of_set_history_ne.
Qed.

Lemma get_remaining_requests_history id period t rl id' :
  history_of id' (snd (get_remaining_requests id period t rl))
  = history_of id' rl.
Proof.
  unfold get_remaining_requests.
  repeat (destruct (String.eqb period _);
          [cbn [snd]; apply history_of_insert_same|]).
  done.
Qed.

Lemma reset_history_same id rl : history_of id (reset id rl) = [].
Proof. unfold history_of, reset. simpl. by rewrite lookup_delete_eq. Qed.

Lemma reset_history_other id id' rl :
  id <> id' -> history_of id' (reset id rl) = history_of id' rl.
Proof.
  intros Hne. unfold history_of, reset. simpl. by rewrite lookup_delete_ne.
Qed.

(** X13: [get_remaining_requests] never answers a negative number,
    answers zero for a period it does not know, and changes no stored
    history; and a call of [is_allowed] is admitted exactly when, at the
    same time, requests remain for the minute, the hour and the day. *)
Theorem get_remaining_requests_spec id t rl :
  (forall period, 0 <= fst (get_remaining_requests id period t rl))
  /\ (forall period,
        period <> "minute"%string -> period <> "hour"%string ->
        period <> "day"%string ->
        get_remaining_requests id period t rl = (0, rl))
  /\ (forall period id',
        history_of id' (snd (get_remaining_requests id period t rl))
        = history_of id' rl)
  /\ (fst (fst (is_allowed id t rl)) = true
      <-> 0 < fst (get_remaining_requests id "minute" t rl)
          /\ 0 < fst (get_remaining_requests id "hour" t rl)
          /\ 0 < fst (get_remaining_requests id "day" t rl)).
Proof.
  split; [|split; [|split]].
  - intros period. rewrite get_remaining_requests_value.
    repeat (destruct (String.eqb period _)); lia.
  - intros period H1 H2 H3. unfold get_remaining_requests.
    apply String.eqb_neq in H1, H2, H3. by rewrite H1, H2, H3.
  - intros period id'. apply get_remaining_requests_history.
  - rewrite is_allowed_iff, !get_remaining_requests_value. simpl. lia.
Qed.

Lemma is_allowed_fst_ext id t rl1 rl2 :
  history_of id rl1 = history_of id rl2 ->
  requests_per_minute rl1 = requests_per_minute rl2 ->
  requests_per_hour rl1 = requests_per_hour rl2 ->
  requests_per_day rl1 = requests_per_day rl2 ->
  fst (is_allowed id t rl1) = fst (is_allowed id t rl2).
Proof.
  intros Hh Hm Hhr Hd. rewrite !is_allowed_by_counts.
  unfold minute_count, hour_count, day_count. by rewrite Hh, Hm, Hhr, Hd.
Qed.

Lemma is_allowed_limits id t rl :
  requests_per_minute (snd (is_allowed id t rl)) = requests_per_minute rl
  /\ requests_per_hour (snd (is_allowed id t rl)) = requests_per_hour rl
  /\ requests_per_day (snd (is_allowed id t rl)) = requests_per_day rl.
Proof.
  unfold is_allowed.
  cbn [requests_per_minute requests_per_hour requests_per_day set_history].
  by repeat (destruct (_ <=? _); [done|]).
Qed.

Lemma is_allowed_other id id' t rl :
  id <> id' ->
  history_of id' (snd (is_allowed id t rl)) = history_of id' rl.
Proof.
  intros Hne. unfold is_allowed.
  cbn [requests_per_minute requests_per_hour requests_per_day set_history].
  repeat (destruct (_ <=? _);
          [cbn [snd]; by rewrite history_of_set_history_ne|]).
  cbn [snd]. by rewrite !history_of_set_history_ne.
Qed.

(** X14: identifiers do not interfere: a call for one identifier leaves
    the history of every other identifier as it was, and the answer a
    later call for another identifier gets is the one it would have got
    without it. *)
Theorem is_allowed_isolated id id' t t' rl :
  id <> id' ->
  history_of id' (snd (is_allowed id t rl)) = history_of id' rl
  /\ fst (is_allowed id' t' (snd (is_allowed id t rl)))
     = fst (is_allowed id' t' rl).
Proof.
  intros Hne. split; [by apply is_allowed_other|].
  destruct (is_allowed_limits id t rl) as (Hm & Hh & Hd).
  apply is_allowed_fst_ext; [by apply is_allowed_other|done..].
Qed.

Lemma is_allowed_isolated_witness :
  fst (is_allowed "u2" 1001 (snd (is_allowed "u1" 1001 Scenarios.exhausted)))
  = fst (is_allowed "u2" 1001 Scenarios.exhausted).
Proof.
  apply (is_allowed_isolated "u1" "u2" 1001 1001 Scenarios.exhausted).
  discriminate.
Defined.

(** X15: [reset] forgets the history of its identifier and of no other;
    the next call of that identifier is admitted whenever the three
    ceilings are positive; resetting an identifier without history
    changes no history. *)
Theorem reset_spec id rl :
  history_of id (reset id rl) = []
  /\ (forall id', id <> id' -> history_of id' (reset id rl) = history_of id' rl)
  /\ (forall t,
        0 < requests_per_minute rl -> 0 < requests_per_hour rl ->
        0 < requests_per_day rl ->
        fst (is_allowed id t (reset id rl)) = (true, None))
  /\ (request_history rl !! id = None -> reset id rl = rl).
Proof.
  split; [|split; [|split]].
  - apply reset_history_same.
  - intros id' Hne. by apply reset_history_other.
  - intros t Hm Hh Hd.
    pose proof (reset_history_same id rl) as Hempty.
    rewrite is_allowed_admit; [done|..];
      unfold minute_count, hour_count, day_count; rewrite Hempty; simpl;
      unfold Py.len; simpl; lia.
  - intros Hnone. unfold reset. destruct rl as [a b c h]. simpl in *.
    f_equal. by apply delete_id.
Qed.

Lemma reset_spec_witness :
  fst (is_allowed "u1" 1001 (reset "u1" Scenarios.exhausted)) = (true, None).
Proof.
  destruct (reset_spec "u1" Scenarios.exhausted) as (_ & _ & Hnext & _).
  apply Hnext; reflexivity.
Defined.

(** *** The size of the stored histories *)

Lemma is_allowed_bounded id t rl : bounded rl -> bounded (snd (is_allowed id t rl)).
Proof.
  intros Hb id'. destruct (is_allowed_limits id t rl) as (_ & _ & ->).
  destruct (decide (id = id')) as [<-|Hne];
    [|rewrite is_allowed_other by done; apply Hb].
  destruct (fst (fst (is_allowed id t rl))) eqn:Hadm.
  - pose proof Hadm as (_ & _ & Hd)%is_allowed_iff.
    rewrite is_allowed_admit by (by apply is_allowed_iff).
    cbn [snd]. rewrite history_of_set_history.
    unfold day_count, Py.len in *. rewrite length_app. simpl. lia.
  - rewrite is_allowed_rejects, history_of_set_history by done.
    specialize (Hb id). unfold Py.len in *.
    pose proof (within_length 86400 t (history_of id rl)). lia.
Qed.

Lemma step_bounded op rl : bounded rl -> bounded (step op rl).
Proof.
  intros Hb. destruct op as [id t|id period t|id]; cbn [step].
  - by apply is_allowed_bounded.
  - intros id'. rewrite get_remaining_requests_history.
    assert (requests_per_day (snd (get_remaining_requests id period t rl))
            = requests_per_day rl) as ->; [|apply Hb].
    unfold get_remaining_requests.
    by repeat (destruct (String.eqb period _); [done|]).
  - intros id'. change (requests_per_day (reset id rl)) with (requests_per_day rl).
    destruct (decide (id = id')) as [<-|Hne].
    + rewrite reset_history_same. unfold Py.len. simpl. lia.
    + rewrite reset_history_other by done. apply Hb.
Qed.

Lemma step_per_day op rl : requests_per_day (step op rl) = requests_per_day rl.
Proof.
  destruct op as [id t|id period t|id]; cbn [step].
  - apply is_allowed_limits.
  - unfold get_remaining_requests.
    by repeat (destruct (String.eqb period _); [done|]).
  - done.
Qed.

Lemma run_ops_cons op ops rl : run_ops (op :: ops) rl = run_ops ops (step op rl).
Proof. reflexivity. Qed.

Lemma run_ops_per_day ops rl :
  requests_per_day (run_ops ops rl) = requests_per_day rl.
Proof.
  revert rl. induction ops as [|op ops IH]; intros rl; [done|].
  by rewrite run_ops_cons, IH, step_per_day.
Qed.

(** X16: whatever calls a limiter serves, in whatever order and at
    whatever times, it never stores more timestamps for an identifier
    than its ceiling of requests per day. *)
Theorem run_ops_bounded per_minute per_hour per_day ops id :
  Py.len (history_of id (run_ops ops (init per_minute per_hour per_day)))
  <= Z.max 0 per_day.
Proof.
  assert (forall rl, bounded rl -> bounded (run_ops ops rl)) as Hrun.
  { induction ops as [|op ops IH]; intros rl Hb; [done|].
    rewrite run_ops_cons. apply IH. by apply step_bounded. }
  change per_day with (requests_per_day (init per_minute per_hour per_day)) at 2.
  rewrite <- (run_ops_per_day ops). apply Hrun.
  intros id'. unfold history_of, Py.len. simpl.
  rewrite lookup_empty. simpl. lia.
Qed.

End RateLimitMore.

(** ** SessionManager: the registry *)

Module SessionMore.

Import Sessions SessionFacts.

Lemma create_session_ok sid uid uuid hex now now' mgr :
  registry_ok mgr ->
  registry_ok (snd (create_session sid uid uuid hex now now' mgr)).
Proof.
  intros [Hreg Hinj]. unfold create_session. cbn [snd].
  set (key := or_else sid uuid). split.
  - intros sid' r. cbn [sessions objects next_ref session_id].
    destruct (decide (key = sid')) as [<-|Hne].
    + rewrite lookup_insert_eq. intros [= <-]. split; [lia|].
      eexists. rewrite lookup_insert_eq. split; [done|]. done.
    + rewrite lookup_insert_ne by done. intros Hl.
      destruct (Hreg _ _ Hl) as (Hlt & s & Hs & Hact & Hid).
      split; [lia|]. exists s. rewrite lookup_insert_ne by lia. done.
  - intros sid1 sid2 r. cbn [sessions].
    destruct (decide (key = sid1)) as [<-|Hne1];
      destruct (decide (key = sid2)) as [<-|Hne2]; try done;
      rewrite ?lookup_insert_eq, ?lookup_insert_ne by done.
    + intros [= <-] Hl. apply Hreg in Hl as [Hlt _]. lia.
    + intros Hl [= <-]. apply Hreg in Hl as [Hlt _]. lia.
    + apply Hinj.
Qed.

Lemma alter_ok f mgr r :
  (forall s, is_active (f s) = is_active s /\ session_id (f s) = session_id s) ->
  registry_ok mgr ->
  registry_ok {| objects := alter f r (objects mgr);
                 sessions := sessions mgr;
                 session_timeout_minutes := session_timeout_minutes mgr;
                 next_ref := next_ref mgr |}.
Proof.
  intros Hf [Hreg Hinj]. split; [|done].
  intros sid r' Hl. cbn [sessions objects next_ref] in *.
  destruct (Hreg _ _ Hl) as (Hlt & s & Hs & Hact & Hid). split; [done|].
  destruct (decide (r = r')) as [->|Hne].
  - exists (f s). rewrite lookup_alter_eq, Hs. destruct (Hf s) as [-> ->]. done.
  - exists s. by rewrite lookup_alter_ne.
Qed.

Lemma remove_session_ok sid mgr :
  registry_ok mgr -> registry_ok (remove_session sid mgr).
Proof.
  intros [Hreg Hinj]. unfold remove_session.
  destruct (sessions mgr !! sid) as [r0|] eqn:E; [|done]. split.
  - intros sid' r. cbn [sessions objects next_ref].
    intros [Hne Hl]%lookup_delete_Some.
    destruct (Hreg _ _ Hl) as (Hlt & s & Hs & Hact & Hid).
    split; [done|]. exists s. rewrite lookup_alter_ne; [done|].
    intros <-. apply Hne. by eapply Hinj.
  - intros sid1 sid2 r. cbn [sessions].
    intros [_ H1]%lookup_delete_Some [_ H2]%lookup_delete_Some.
    by eapply Hinj.
Qed.

Lemma remove_all_ok sids mgr :
  registry_ok mgr -> registry_ok (remove_all sids mgr).
Proof.
  revert mgr. induction sids as [|sid sids IH]; intros mgr Hok; [done|].
  rewrite remove_all_cons. by apply IH, remove_session_ok.
Qed.

Lemma step_ok op mgr : registry_ok mgr -> registry_ok (step op mgr).
Proof.
  intros Hok. destruct op; cbn [step].
  - by apply create_session_ok.
  - unfold get_session. destruct (sessions mgr !! sid); [|done].
    cbn [snd]. by apply alter_ok.
  - unfold get_or_create_session. destruct (known sid mgr).
    + cbn [snd]. by apply alter_ok.
    + by apply create_session_ok.
  - by apply remove_session_ok.
  - by apply remove_all_ok.
  - by apply alter_ok.
Qed.

Lemma run_ops_ok ops mgr : registry_ok mgr -> registry_ok (run_ops ops mgr).
Proof.
  revert mgr. induction ops as [|op ops IH]; intros mgr Hok; [done|].
  apply IH. by apply step_ok.
Qed.

Lemma init_ok timeout : registry_ok (init timeout).
Proof. split; intros *; cbn [sessions init]; by rewrite lookup_empty. Qed.

Lemma filter_all_true {A} (f : A -> bool) (l : list A) :
  (forall x, In x l -> f x = true) -> List.filter f l = l.
Proof.
  induction l as [|x l IH]; intros H; [done|]. simpl.
  rewrite H by (by left). f_equal. apply IH. intros y Hy. apply H. by right.
Qed.

Lemma filter_all_false {A} (f : A -> bool) (l : list A) :
  (forall x, In x l -> f x = false) -> List.filter f l = [].
Proof.
  induction l as [|x l IH]; intros H; [done|]. simpl.
  rewrite H by (by left). apply IH. intros y Hy. apply H. by right.
Qed.

(** X17: in every state the manager reaches through its own operations
    (creation, lookup, get-or-create, removal, sweep) and the counting of
    conversations by the holders, each registered session is an active
    object registered under its own identifier, so the count of active
    sessions equals the count of sessions. *)
Theorem registered_sessions_active timeout ops :
  let mgr := run_ops ops (init timeout) in
  (forall sid r,
      sessions mgr !! sid = Some r ->
      exists s, objects mgr !! r = Some s
                /\ is_active s = true /\ session_id s = sid)
  /\ get_active_sessions_count mgr = total_sessions mgr.
Proof.
  intros mgr.
  assert (registry_ok mgr) as [Hreg Hinj] by apply run_ops_ok, init_ok.
  split.
  - intros sid r Hl. by destruct (Hreg _ _ Hl) as (_ & Hs).
  - unfold get_active_sessions_count, total_sessions, Py.len.
    rewrite filter_all_true; [by rewrite length_map_to_list|].
    intros [sid r] Hin%list_elem_of_In%elem_of_map_to_list.
    destruct (Hreg _ _ Hin) as (_ & s & Hs & Hact & _).
    unfold active_ref. cbn [snd]. by rewrite Hs.
Qed.

(** X18: a session created under a given identifier has that
    identifier, the two clock readings as creation and activity times, no
    conversation and is active; [get_session] finds it again and returns
    the same object, whose last activity is then the time of the lookup
    and whose other fields are what they were, the registry being left
    as it was. *)
Theorem create_then_get sid uid uuid hex now now' t mgr :
  sid <> EmptyString ->
  let '(r, mgr1) := create_session (Some sid) uid uuid hex now now' mgr in
  exists s s',
    objects mgr1 !! r = Some s
    /\ session_id s = sid /\ created_at s = now /\ last_activity s = now'
    /\ conversation_count s = 0 /\ is_active s = true
    /\ fst (get_session sid t mgr1) = Some r
    /\ objects (snd (get_session sid t mgr1)) !! r = Some s'
    /\ last_activity s' = t
    /\ session_id s' = sid /\ user_id s' = user_id s
    /\ created_at s' = now /\ conversation_count s' = 0
    /\ is_active s' = true
    /\ sessions (snd (get_session sid t mgr1)) = sessions mgr1.
Proof.
  intros Hne. unfold create_session.
  assert (or_else (Some sid) uuid = sid) as Hkey by (by destruct sid).
  eexists. eexists. split; [cbn [objects]; apply lookup_insert_eq|].
  cbn [session_id created_at last_activity conversation_count is_active].
  rewrite Hkey. do 5 (split; [done|]).
  split; [unfold get_session; cbn [sessions]; by rewrite lookup_insert_eq|].
  split.
  { unfold get_session. cbn [sessions]. rewrite lookup_insert_eq.
    cbn [snd objects]. rewrite lookup_alter_eq, lookup_insert_eq.
    reflexivity. }
  cbn [update_activity session_id user_id created_at last_activity
       conversation_count is_active].
  do 6 (split; [done|]).
  unfold get_session. cbn [sessions]. by rewrite lookup_insert_eq.
Qed.

Lemma get_session_unknown sid t mgr :
  sessions mgr !! sid = None -> get_session sid t mgr = (None, mgr).
Proof. intros H. unfold get_session. by rewrite H. Qed.

(** X19: sweeping twice at the same time is sweeping once. *)
Theorem cleanup_idempotent now mgr :
  cleanup_inactive_sessions now (cleanup_inactive_sessions now mgr)
  = cleanup_inactive_sessions now mgr.
Proof.
  set (mgr' := cleanup_inactive_sessions now mgr).
  assert (session_timeout_minutes mgr' = session_timeout_minutes mgr) as Ht.
  { subst mgr'. unfold cleanup_inactive_sessions.
    generalize (inactive_ids now mgr). intros sids. revert mgr.
    induction sids as [|sid sids IH]; intros mgr; [done|].
    rewrite remove_all_cons, IH. unfold remove_session.
    by destruct (sessions mgr !! sid). }
  assert (inactive_ids now mgr' = []) as Hnone; [|
    unfold cleanup_inactive_sessions at 1; by rewrite Hnone].
  unfold inactive_ids. rewrite filter_all_false; [done|].
  intros [sid r] Hin%list_elem_of_In%elem_of_map_to_list. cbn [snd].
  subst mgr'. unfold cleanup_inactive_sessions in Hin |- *.
  rewrite remove_all_sessions in Hin. case_bool_decide as Hin'; [done|].
  unfold cutoff_time. fold (cleanup_inactive_sessions now mgr). rewrite Ht.
  fold (cutoff_time now mgr).
  assert (idle_before (cutoff_time now mgr) mgr r = false) as Hidle.
  { destruct (idle_before (cutoff_time now mgr) mgr r) eqn:E; [|done].
    destruct Hin'. apply elem_of_inactive_ids. eauto. }
  unfold idle_before in *. unfold cleanup_inactive_sessions.
  rewrite remove_all_objects.
  destruct (decide _); [|done].
  by destruct (objects mgr !! r).
Qed.

End SessionMore.

(** ** ReconnectionManager: outcome and delay *)

Module ReconnectMore.

Import Reconnect ReconnectFacts.

Lemma attempt_loop_failure remaining attempt max base f :
  Z.of_nat remaining = max - attempt + 1 ->
  fst (attempt_loop remaining attempt max base f) = false ->
  snd (attempt_loop remaining attempt max base f)
  = backoff_from base attempt remaining
  /\ (forall i, attempt <= i <= max -> f i = false).
Proof.
  revert attempt. induction remaining as [|remaining IH]; intros attempt Hinv.
  - intros _. split; [done|]. intros i Hi. lia.
  - cbn [attempt_loop]. destruct (f attempt) eqn:Hf; [done|].
    destruct (Z.eqb_spec attempt max) as [->|Hne].
    + intros _. assert (remaining = 0%nat) as -> by lia. split; [done|].
      intros i Hi. by replace i with max by lia.
    + specialize (IH (attempt + 1)).
      destruct (attempt_loop remaining (attempt + 1) max base f) as [ok ev].
      cbn [fst snd] in *. intros ->.
      destruct IH as [-> Hall]; [lia|done|]. split; [done|].
      intros i Hi. destruct (decide (i = attempt)) as [->|]; [done|].
      apply Hall. lia.
Qed.

Lemma attempt_reconnect_trace f mgr :
  auto_reconnect mgr = true -> is_reconnecting mgr = false ->
  exists n,
    snd (fst (attempt_reconnect f mgr)) = backoff_events (base_delay mgr) n
    /\ (fst (fst (attempt_reconnect f mgr)) = false ->
        0 <= max_attempts mgr -> n = Z.to_nat (max_attempts mgr)).
Proof.
  intros Ha Hr. rewrite attempt_reconnect_enabled by done. cbn [fst snd].
  destruct (attempt_loop_events (Z.to_nat (max_attempts mgr)) 1
              (max_attempts mgr) (base_delay mgr) f)
    as (n & Hn & Hev & _).
  exists n. split; [done|]. intros Hfail Hmax.
  destruct (attempt_loop_failure (Z.to_nat (max_attempts mgr)) 1
              (max_attempts mgr) (base_delay mgr) f) as [E _]; [lia|done|].
  rewrite Hev in E. apply (f_equal invocations) in E.
  by rewrite !invocations_backoff_from in E.
Qed.

(** X20: a call that runs the loop succeeds exactly when the action
    returns at one of the attempts 1 to [max_attempts]; it then stops at
    the first such attempt, having invoked the action once per attempt up
    to it; otherwise it invokes the action [max_attempts] times. *)
Theorem attempt_reconnect_outcome f mgr :
  auto_reconnect mgr = true -> is_reconnecting mgr = false ->
  let ok := fst (fst (attempt_reconnect f mgr)) in
  let n := invocations (snd (fst (attempt_reconnect f mgr))) in
  (ok = true <-> exists i, 1 <= i <= max_attempts mgr /\ f i = true)
  /\ (ok = true ->
      1 <= Z.of_nat n <= max_attempts mgr /\ f (Z.of_nat n) = true
      /\ forall i, 1 <= i < Z.of_nat n -> f i = false)
  /\ (ok = false -> n = Z.to_nat (max_attempts mgr)).
Proof.
  intros Ha Hr. cbv zeta. rewrite attempt_reconnect_enabled by done.
  cbn [fst snd].
  destruct (attempt_loop_events (Z.to_nat (max_attempts mgr)) 1
              (max_attempts mgr) (base_delay mgr) f)
    as (n & Hn & Hev & Hok & Hfail).
  pose proof (attempt_loop_failure (Z.to_nat (max_attempts mgr)) 1
                (max_attempts mgr) (base_delay mgr) f) as Hno.
  destruct (attempt_loop _ _ _ _ _) as [ok ev]. cbn [fst snd] in *.
  rewrite Hev, invocations_backoff_from.
  assert (ok = true ->
          1 <= Z.of_nat n <= max_attempts mgr /\ f (Z.of_nat n) = true
          /\ forall i, 1 <= i < Z.of_nat n -> f i = false) as Hyes.
  { intros E. destruct (Hok E) as [Hpos Hf]. split; [lia|]. split.
    - by replace (1 + Z.of_nat n - 1) with (Z.of_nat n) in Hf by lia.
    - intros i Hi. specialize (Hfail (Z.to_nat (i - 1))).
      replace (1 + Z.of_nat (Z.to_nat (i - 1))) with i in Hfail by lia.
      apply Hfail. lia. }
  split; [|split; [done|]].
  - split.
    + intros E. destruct (Hyes E) as (Hb & Hf & _). eauto.
    + intros (i & Hi & Hf). destruct ok; [done|].
      destruct (decide (0 <= max_attempts mgr)) as [Hm|Hm]; [|lia].
      destruct Hno as [_ Hall]; [lia|done|]. rewrite Hall in Hf by lia. done.
  - intros ->. destruct (decide (0 <= max_attempts mgr)) as [Hm|Hm].
    + destruct Hno as [E _]; [lia|done|].
      rewrite Hev in E.
      apply (f_equal invocations) in E.
      by rewrite !invocations_backoff_from in E.
    + lia.
Qed.

Lemma attempt_reconnect_outcome_witness :
  fst (fst (attempt_reconnect Scenarios.second_succeeds Scenarios.three_tries))
  = true
  <-> exists i, 1 <= i <= 3 /\ Scenarios.second_succeeds i = true.
Proof.
  exact (proj1 (attempt_reconnect_outcome Scenarios.second_succeeds
                  Scenarios.three_tries eq_refl eq_refl)).
Defined.

Lemma total_delay_backoff_from base attempt n :
  1 <= attempt ->
  total_delay (backoff_from base attempt n)
  = base * 2 ^ (attempt - 1) * (2 ^ Z.of_nat n - 1).
Proof.
  revert attempt. induction n as [|n IH]; intros attempt Ha.
  - unfold total_delay. simpl. lia.
  - unfold total_delay in *. cbn [backoff_from delays flat_map app foldr].
    fold (delays (backoff_from base (attempt + 1) n)).
    rewrite IH by lia.
    replace (attempt + 1 - 1) with (attempt - 1 + 1) by lia.
    rewrite Z.pow_add_r by lia.
    rewrite Nat2Z.inj_succ, Z.pow_succ_r by lia. lia.
Qed.

(** X21: a run of [n] invocations has slept [base_delay * (2^n - 1)] in
    all; a call whose every attempt fails has slept
    [base_delay * (2^max_attempts - 1)] when it gives up. *)
Theorem attempt_reconnect_total_delay f mgr :
  auto_reconnect mgr = true -> is_reconnecting mgr = false ->
  let events := snd (fst (attempt_reconnect f mgr)) in
  total_delay events
  = base_delay mgr * (2 ^ Z.of_nat (invocations events) - 1)
  /\ (fst (fst (attempt_reconnect f mgr)) = false ->
      0 <= max_attempts mgr ->
      total_delay events = base_delay mgr * (2 ^ max_attempts mgr - 1)).
Proof.
  intros Ha Hr events.
  destruct (attempt_reconnect_trace f mgr Ha Hr) as (n & Hev & Hno).
  fold events in Hev. rewrite Hev. unfold backoff_events.
  rewrite invocations_backoff_from, total_delay_backoff_from by lia.
  split; [simpl; lia|]. intros Hfail Hmax.
  rewrite (Hno Hfail Hmax), Z2Nat.id by done. simpl. lia.
Qed.

Lemma attempt_reconnect_total_delay_witness :
  total_delay (snd (fst (attempt_reconnect Scenarios.always_fails
                                           Scenarios.three_tries))) = 7.
Proof.
  destruct (attempt_reconnect_total_delay Scenarios.always_fails
              Scenarios.three_tries eq_refl eq_refl) as [_ Hgive].
  rewrite Hgive; [reflexivity|reflexivity|simpl; lia].
Defined.

(** X22: while a reconnection is in progress a further call answers
    failure at once, without sleeping or invoking the action, and leaves
    the manager as it is; after [reset] a call with automatic reconnection
    on and at least one attempt allowed runs the loop again: it invokes the
    action, and it leaves no reconnection in progress behind. *)
Theorem attempt_reconnect_single_flight f mgr :
  (is_reconnecting mgr = true -> attempt_reconnect f mgr = (false, [], mgr))
  /\ (auto_reconnect mgr = true -> 1 <= max_attempts mgr ->
      (1 <= invocations (snd (fst (attempt_reconnect f (reset mgr)))))%nat
      /\ is_reconnecting (snd (attempt_reconnect f (reset mgr))) = false).
Proof.
  split.
  - intros Hr. unfold attempt_reconnect. rewrite Hr. by destruct (auto_reconnect mgr).
  - intros Ha Hmax.
    rewrite (attempt_reconnect_enabled f (reset mgr)) by done.
    cbn [fst snd reset max_attempts base_delay finish is_reconnecting].
    split; [|done].
    destruct (Z.to_nat (max_attempts mgr)) as [|k] eqn:E; [lia|].
    cbn [attempt_loop]. destruct (f 1); [by cbn|].
    destruct (1 =? max_attempts mgr); [by cbn|].
    destruct (attempt_loop k (1 + 1) _ _ f) as [ok ev]. cbn [snd].
    unfold invocations. simpl. lia.
Qed.

Lemma attempt_reconnect_single_flight_witness :
  (1 <= invocations
          (snd (fst (attempt_reconnect Scenarios.always_fails
                       (reset Scenarios.three_tries)))))%nat.
Proof.
  destruct (attempt_reconnect_single_flight Scenarios.always_fails
              Scenarios.three_tries) as [_ Hrun].
  apply Hrun; [reflexivity|simpl; lia].
Defined.

End ReconnectMore.

(** ** UserPreferences, the digest, the context of a turn *)

Module PreferencesFacts.

Import Preferences.

Section Values.

Context {Value : Type} (text : string -> Value).

(** X23: a preference set under a category other than ["updated_at"] is
    read back, whatever was there; every other setting of every other
    category than ["updated_at"] reads as before; and after any
    [set_preference] reading a setting of ["updated_at"] fails, that key
    holding a time stamp and no dictionary. *)
Theorem set_then_get category key value now (preferences : gmap string (Entry Value))
    preferences' :
  set_preference text category key value now preferences = inl preferences' ->
  (category <> "updated_at"%string ->
   forall fallback,
     get_preference category key fallback preferences' = inl value)
  /\ (forall category' key' fallback,
        category' <> "updated_at"%string ->
        (category', key') <> (category, key) ->
        get_preference category' key' fallback preferences'
        = get_preference category' key' fallback preferences)
  /\ (forall key' fallback,
        get_preference "updated_at" key' fallback preferences'
        = inr AttributeError).
Proof.
  unfold set_preference. intros Hset.
  assert (exists g, preferences'
                    = <["updated_at"%string := Scalar (text now)]>
                        (<[category := Group g]> preferences)
                    /\ g !! key = Some value
                    /\ (forall key', key' <> key ->
                          g !! key'
                          = match preferences !! category with
                            | Some (Group settings) => settings !! key'
                            | _ => None
                            end)
                    /\ (forall v, preferences !! category <> Some (Scalar v)))
    as (g & -> & Hkey & Hother & Hgroup).
  { destruct (preferences !! category) as [[settings|v]|]; [| done |].
    - injection Hset as <-. eexists. split; [done|].
      split; [apply lookup_insert_eq|]. split; [|done].
      intros key' Hne. by rewrite lookup_insert_ne.
    - injection Hset as <-. eexists. split; [done|].
      split; [apply lookup_singleton_eq|]. split; [|done].
      intros key' Hne. by rewrite lookup_singleton_ne. }
  split; [|split].
  - intros Hne fallback. unfold get_preference.
    rewrite lookup_insert_ne, lookup_insert_eq by done. by rewrite Hkey.
  - intros category' key' fallback Hne Hpair. unfold get_preference.
    rewrite lookup_insert_ne by done.
    destruct (decide (category' = category)) as [->|Hc].
    + rewrite lookup_insert_eq.
      assert (key' <> key) as Hk by congruence.
      rewrite (Hother key' Hk).
      destruct (preferences !! category) as [[settings|v]|]; try done.
    + by rewrite lookup_insert_ne.
  - intros key' fallback. unfold get_preference.
    by rewrite lookup_insert_eq.
Qed.

Lemma set_preference_fails category key value now
    (preferences : gmap string (Entry Value)) :
  (exists e, set_preference text category key value now preferences = inr e)
  <-> exists v, preferences !! category = Some (Scalar v).
Proof.
  unfold set_preference.
  destruct (preferences !! category) as [[settings|v]|]; split;
    try (intros [e He]; done); try (intros [v' Hv]; done); eauto.
Qed.

End Values.

Lemma set_then_get_witness :
  get_preference "connection" "max_retries" 5
    (<["updated_at"%string := Scalar 0]>
       (<["connection"%string := Group {["max_retries"%string := 7]}]> ∅))
  = inl 7.
Proof.
  assert (set_preference (fun _ => 0) "connection" "max_retries" 7
            "2024-05-01T10:00:00" (∅ : gmap string (Entry Z))
          = inl (<["updated_at"%string := Scalar 0]>
                   (<["connection"%string
                      := Group {["max_retries"%string := 7]}]> ∅))) as Hset
    by reflexivity.
  destruct (set_then_get (fun _ => 0) "connection" "max_retries" 7
              "2024-05-01T10:00:00" ∅ _ Hset) as [Hget _].
  apply Hget. discriminate.
Defined.

End PreferencesFacts.

Module Composition.

Import Memory MemoryFacts Context ContextMore Sessions SessionMore Pipeline.

(** *** The digest of the summarizer *)

Lemma length_append s1 s2 :
  String.length (String.append s1 s2) = (String.length s1 + String.length s2)%nat.
Proof. induction s1 as [|c s1 IH]; simpl; [done|]. by rewrite IH. Qed.

Lemma length_substring_0 n s : (String.length (String.substring 0 n s) <= n)%nat.
Proof.
  revert n. induction s as [|c s IH]; intros [|n]; simpl; try lia.
  specialize (IH n). lia.
Qed.

Lemma length_map_string f s : String.length (Py.map_string f s) = String.length s.
Proof. induction s as [|c s IH]; simpl; [done|]. by rewrite IH. Qed.

Lemma length_capitalize s : String.length (Py.capitalize s) = String.length s.
Proof.
  destruct s as [|c s]; [done|]. simpl. unfold Py.lower.
  by rewrite length_map_string.
Qed.

Lemma summary_part_length msg :
  (String.length (summary_part msg) <= String.length (role msg) + 105)%nat.
Proof.
  unfold summary_part. rewrite !length_append, length_capitalize.
  destruct (Nat.ltb_spec 100 (String.length (content msg))).
  - rewrite length_append. pose proof (length_substring_0 100 (content msg)).
    simpl. lia.
  - simpl. lia.
Qed.

(** X24: the digest the summarizer writes holds at most 103 characters
    of each message: its length is at most the sum, over the summarized
    messages, of the length of the role plus 108, however long the
    messages are. *)
Theorem create_summary_length msgs :
  (String.length (create_summary msgs)
   <= foldr (fun msg acc => String.length (role msg) + 108 + acc) 0 msgs)%nat.
Proof.
  unfold create_summary.
  induction msgs as [|msg msgs IH]; [simpl; lia|].
  pose proof (summary_part_length msg).
  destruct msgs as [|msg' msgs].
  { change (Py.join " | " (summary_part <$> [msg])) with (summary_part msg).
    cbn [foldr]. lia. }
  change (Py.join " | " (summary_part <$> msg :: msg' :: msgs))
    with (String.append (summary_part msg)
            (String.append " | " (Py.join " | " (summary_part <$> msg' :: msgs)))).
  rewrite !length_append. change (String.length " | ") with 3%nat.
  cbn [foldr] in *. lia.
Qed.

(** *** The context of a turn *)

Lemma select_recent_suffix limit msgs :
  select_recent limit (rev msgs) 0 [] `suffix_of` msgs.
Proof.
  destruct (select_recent_spec limit (rev msgs) 0 [])
    as (taken & rest & Hrev & Hsel & _).
  rewrite Hsel, app_nil_r. exists (rev rest).
  by rewrite <- rev_app_distr, <- Hrev, rev_involutive.
Qed.

Lemma suffix_fmap {A B} (f : A -> B) (l1 l2 : list A) :
  l1 `suffix_of` l2 -> (f <$> l1) `suffix_of` (f <$> l2).
Proof. intros [k ->]. exists (f <$> k). by rewrite fmap_app. Qed.

(** X25: the context a turn of the voice pipeline hands to the language
    model is either none, or the last one or two retained messages,
    reduced to role and content, in their order; with an empty memory it
    is none. *)
Theorem turn_context_bound text memory :
  (messages memory = [] -> turn_context text memory = None)
  /\ (forall ctx,
        turn_context text memory = Some ctx ->
        1 <= Py.len ctx <= 2
        /\ ctx `suffix_of` (entry_of <$> messages memory)).
Proof.
  unfold turn_context. cbv zeta. split.
  - intros Hempty. unfold get_context. by rewrite Hempty.
  - intros ctx.
    set (full := get_context (Some 2000) memory).
    assert (full `suffix_of` (entry_of <$> messages memory)) as Hsuf.
    { subst full. unfold get_context. cbn. apply suffix_fmap, select_recent_suffix. }
    destruct (needs_context text full) eqn:Hneed; [|done].
    unfold get_relevant_context. rewrite Hneed. cbn [negb].
    assert (full <> []) as Hne by (by destruct full).
    assert (1 <= Py.len full).
    { unfold Py.len. destruct full; [done|]. simpl. lia. }
    destruct (Z.leb_spec 2 (Py.len full)) as [Hle|Hgt]; intros [= <-].
    + split.
      * unfold Py.len, Py.slice_from, Py.slice_bound in *.
        rewrite length_drop. simpl. lia.
      * etransitivity; [apply suffix_drop|done].
    + split; [lia|done].
Qed.

Lemma turn_context_bound_witness :
  exists ctx,
    turn_context "and what about that?"
      (run Scenarios.six_calls (Memory.init 2000 4 15 None)) = Some ctx
    /\ 1 <= Py.len ctx <= 2.
Proof.
  eexists. split; [vm_compute; reflexivity|].
  apply (proj2 (turn_context_bound "and what about that?"
                  (run Scenarios.six_calls (Memory.init 2000 4 15 None)))).
  vm_compute. reflexivity.
Defined.

(** *** Creating a session under a taken identifier *)

(** X26: [create_session] under an identifier that is already registered
    registers a new object in its place: the identifier now refers to the
    new object, and the object registered before is left as it was, active
    included.  [get_or_create_session] under such an identifier returns
    the registered object and registers nothing. *)
Theorem create_session_replaces sid uid uuid hex now now' mgr r0 :
  sid <> EmptyString ->
  sessions mgr !! sid = Some r0 ->
  (r0 < next_ref mgr)%nat ->
  let '(r, mgr1) := create_session (Some sid) uid uuid hex now now' mgr in
  r <> r0
  /\ sessions mgr1 !! sid = Some r
  /\ objects mgr1 !! r0 = objects mgr !! r0
  /\ fst (get_or_create_session (Some sid) uuid hex now now' mgr) = r0
  /\ sessions (snd (get_or_create_session (Some sid) uuid hex now now' mgr))
     = sessions mgr.
Proof.
  intros Hne Hreg Hlt. unfold create_session.
  assert (or_else (Some sid) uuid = sid) as Hkey by (by destruct sid).
  cbn [session_id sessions objects]. rewrite Hkey.
  assert (known (Some sid) mgr = Some r0) as Hknown.
  { unfold known. by destruct sid. }
  unfold get_or_create_session. rewrite Hknown. cbn [fst snd sessions].
  split; [lia|]. split; [apply lookup_insert_eq|].
  split; [|done]. rewrite lookup_insert_ne; [done|lia].
Qed.

Lemma create_session_replaces_witness :
  let '(r, mgr1) :=
    create_session (Some "a"%string) None "uuid-c" "fedcba9876543210" 9 9
                   Scenarios.two_sessions in
  r <> 0%nat
  /\ sessions mgr1 !! "a"%string = Some r
  /\ objects mgr1 !! 0%nat = objects Scenarios.two_sessions !! 0%nat
  /\ fst (get_or_create_session (Some "a"%string) "uuid-c" "fedcba9876543210"
            9 9 Scenarios.two_sessions) = 0%nat
  /\ sessions (snd (get_or_create_session (Some "a"%string) "uuid-c"
                      "fedcba9876543210" 9 9 Scenarios.two_sessions))
     = sessions Scenarios.two_sessions.
Proof.
  apply (create_session_replaces "a" None "uuid-c" "fedcba9876543210" 9 9
           Scenarios.two_sessions 0%nat).
  - discriminate.
  - reflexivity.
  - vm_compute. lia.
Defined.

Lemma create_then_get_witness :
  let '(r, mgr1) :=
    create_session (Some "a"%string) None "uuid-a" "0123456789abcdef" 0 0
                   (Sessions.init 30) in
  exists s s',
    objects mgr1 !! r = Some s
    /\ session_id s = "a"%string /\ created_at s = 0 /\ last_activity s = 0
    /\ conversation_count s = 0 /\ is_active s = true
    /\ fst (get_session "a" 5 mgr1) = Some r
    /\ objects (snd (get_session "a" 5 mgr1)) !! r = Some s'
    /\ last_activity s' = 5
    /\ session_id s' = "a"%string /\ user_id s' = user_id s
    /\ created_at s' = 0 /\ conversation_count s' = 0
    /\ is_active s' = true
    /\ sessions (snd (get_session "a" 5 mgr1)) = sessions mgr1.
Proof.
  apply (create_then_get "a" None "uuid-a" "0123456789abcdef" 0 0 5
           (Sessions.init 30)).
  discriminate.
Defined.

End Composition.

(** ** Limits of the memory; further instances *)

Module MemoryLimits.

Import Memory MemoryFacts MemoryOrder MemoryRuns.

(** X27: with a message limit of at least one, after each call of a run
    the running total is the sum of the token estimates of the retained
    messages and the number of retained messages is within the limit. *)
Theorem run_invariant_each_call mt mm st kws calls k :
  1 <= mm ->
  let m := run (take k calls) (init mt mm st kws) in
  total_tokens m = calculate_total_tokens (messages m)
  /\ Py.len (messages m) <= mm.
Proof. intros Hmm. by apply run_invariant. Qed.

Lemma run_invariant_each_call_witness :
  let m := run (take 5 Scenarios.six_calls) (init 2000 4 15 None) in
  total_tokens m = calculate_total_tokens (messages m)
  /\ Py.len (messages m) <= 4.
Proof.
  apply (run_invariant_each_call 2000 4 15 None Scenarios.six_calls 5). lia.
Defined.

(** X28: in a state a run has reached, for a limit above zero,
    [get_context] returns, reduced to role and content and in their
    order, the longest final segment of the retained messages whose token
    estimates sum to at most the limit. *)
Theorem get_context_is_longest_suffix mt mm st kws calls limit :
  0 < limit ->
  let m := run calls (init mt mm st kws) in
  exists older kept,
    messages m = older ++ kept
    /\ get_context (Some limit) m = entry_of <$> kept
    /\ calculate_total_tokens kept <= limit
    /\ (forall before suffix,
          messages m = before ++ suffix ->
          calculate_total_tokens suffix <= limit ->
          (length suffix <= length kept)%nat).
Proof.
  intros Hpos m.
  destruct (get_context_greedy_suffix m limit) as (older & kept & Hs & Hg & Hfit & Hnext);
    [lia|lia|].
  exists older, kept. repeat split; try done.
  apply (get_context_longest_suffix m limit older kept); try done.
  apply run_tokens_ok. constructor.
Qed.

Lemma get_context_is_longest_suffix_witness :
  exists older kept,
    messages (run Scenarios.six_calls (init 2000 4 15 None)) = older ++ kept
    /\ get_context (Some 1) (run Scenarios.six_calls (init 2000 4 15 None))
       = entry_of <$> kept
    /\ calculate_total_tokens kept <= 1.
Proof.
  destruct (get_context_is_longest_suffix 2000 4 15 None Scenarios.six_calls 1)
    as (older & kept & H1 & H2 & H3 & _); [lia|].
  exists older, kept. by repeat split.
Defined.

Lemma summarize_old_messages_shape_witness :
  length (messages (summarize_old_messages "2024-05-01T10:00:09.000001"
                      Scenarios.crowded)) = 5%nat.
Proof.
  destruct (summarize_old_messages_shape "2024-05-01T10:00:09.000001"
              Scenarios.crowded) as [_ Hlong].
  destruct Hlong as (s & _ & Hlen & _); [simpl; lia|]. exact Hlen.
Defined.

Lemma run_never_summarizes_witness :
  Forall (fun msg => is_summary msg = false)
         (messages (run Scenarios.six_calls (init 2000 10 15 None))).
Proof. apply run_never_summarizes; lia. Defined.

End MemoryLimits.

Module MoreWitnesses.

Import Memory Context ContextMore RateLimit RateLimitMore Sessions SessionMore
  Reconnect ReconnectMore.

Lemma extract_topics_spec_witness :
  (4 <= String.length "hello")%nat /\ "hello"%string ∉ common_words.
Proof.
  destruct (extract_topics_spec Scenarios.greeting "") as (Htopic & _).
  destruct (Htopic "hello"%string) as (Hlen & _ & Hstop).
  - apply (bool_decide_unpack _). vm_compute. exact I.
  - by split.
Defined.

Lemma get_remaining_requests_spec_witness :
  get_remaining_requests "u1" "week" 1001 Scenarios.exhausted
  = (0, Scenarios.exhausted).
Proof.
  destruct (get_remaining_requests_spec "u1" 1001 Scenarios.exhausted)
    as (_ & Hunknown & _).
  apply Hunknown; discriminate.
Defined.

Lemma registered_sessions_active_witness :
  exists s,
    objects (Sessions.run_ops
               [OpCreate (Some "a"%string) None "uuid-a" "0123456789abcdef" 0 0;
                OpGet "a" 7]
               (Sessions.init 30)) !! 0%nat = Some s
    /\ is_active s = true /\ session_id s = "a"%string.
Proof.
  destruct (registered_sessions_active 30
              [OpCreate (Some "a"%string) None "uuid-a" "0123456789abcdef" 0 0;
               OpGet "a" 7]) as [Hreg _].
  apply (Hreg "a"%string 0%nat). reflexivity.
Defined.

End MoreWitnesses.
